(** * SEO Genie (streamlit_app.py): a shallow embedding and its properties

    The program is one Python module.  Its functions are embedded here in
    the order of the source:

    - [fetch_html]            (lines 15-31)
    - [extract_onpage_data]   (lines 33-51)
    - [calculate_seo_score]   (lines 53-90)
    - [generate_wordcloud]    (lines 92-100)
    - [get_top_keywords]      (lines 102-115)
    - [call_seo_genie]        (lines 117-141)
    - [main]                  (lines 147-225)

    Python values are modelled as follows.  A [str] is the list of its
    code points; [len] counts code points.  An [int] is a [Z].  A [dict]
    that is only read is a [gmap]; the [dict] whose iteration order is
    observed ([freq] in [get_top_keywords]) is an association list in
    insertion order.  A raised exception is a value of [exn] carried by
    [result]; the user interface calls [st.*] append to a trace of
    [event]s. *)

From Stdlib Require Import ZArith List Bool Ascii String Sorted Lia.
From stdpp Require Import base option list sorting gmap.

Local Open Scope Z_scope.

(** ** Python strings and integers *)

(** A Python [str]: the sequence of its Unicode code points. *)
Abbreviation pystr := (list N).

(** An ASCII literal of the source, as a Python [str]. *)
Definition py (s : string) : pystr :=
  List.map N_of_ascii (list_ascii_of_string s).

(** Python's [len], on any sequence. *)
Definition len {A : Type} (l : list A) : Z := Z.of_nat (length l).

(** ** Exceptions *)

(** The exceptions the program can meet; every one of them is a subclass
    of Python's [Exception], which is what the two [except Exception]
    handlers of the source catch. *)
Inductive exn : Type :=
| KeyError (key : pystr)
| UnboundLocalError (name : pystr)
| IndexError
| ValueError (msg : pystr)
| RequestException (msg : pystr)
| OpenAIError (msg : pystr).

Inductive result (A : Type) : Type :=
| Ok (a : A)
| Raise (e : exn).
Arguments Ok {A} a.
Arguments Raise {A} e.

Definition rbind {A B : Type} (r : result A) (k : A -> result B) : result B :=
  match r with
  | Ok a => k a
  | Raise e => Raise e
  end.

Declare Scope result_scope.
Delimit Scope result_scope with result.
Notation "x <-! r ; k" := (rbind r (fun x => k))
  (at level 100, r at next level, right associativity) : result_scope.

(** [d[k]] on a dict: [KeyError] when the key is absent. *)
Definition getitem {V : Type} (d : gmap pystr V) (k : pystr) : result V :=
  match d !! k with
  | Some v => Ok v
  | None => Raise (KeyError k)
  end.

(** ** The scorer: [calculate_seo_score] (lines 53-90) *)

Module Scorer.

(** Lines 58-64: the title-length band, as the update of [score]. *)
Definition title_band (score : Z) (title : pystr) : Z :=
  if (50 <=? len title) && (len title <=? 60) then score + 20
  else if ((30 <=? len title) && (len title <? 50))
          || ((60 <? len title) && (len title <=? 70)) then score + 10
  else score + 5.

(** Lines 66-72: the description-length band. *)
Definition description_band (score : Z) (meta_desc : pystr) : Z :=
  if (120 <=? len meta_desc) && (len meta_desc <=? 160) then score + 20
  else if ((80 <=? len meta_desc) && (len meta_desc <? 120))
          || ((160 <? len meta_desc) && (len meta_desc <=? 200)) then score + 10
  else score + 5.

(** Lines 74-78: presence of an h1. *)
Definition h1_presence (score : Z) (h1 : list pystr) : Z :=
  if 0 <? len h1 then score + 20 else score + 0.

(** Lines 84-87: h2 and h3 usage. *)
Definition h2_h3_usage (score h2_count h3_count : Z) : Z :=
  let score := if 1 <=? h2_count then score + 10 else score in
  let score := if 2 <=? h3_count then score + 10 else score in
  score.

(** Lines 57-87: the value of [score] when control reaches the [return]. *)
Definition score_before_cap (title meta_desc : pystr)
    (headers : gmap pystr (list pystr)) : result Z :=
  (let score := 0 in
   let score := title_band score title in
   let score := description_band score meta_desc in
   h1 <-! getitem headers (py "h1");
   let score := h1_presence score h1 in
   h2 <-! getitem headers (py "h2");
   let h2_count := len h2 in
   h3 <-! getitem headers (py "h3");
   let h3_count := len h3 in
   let score := h2_h3_usage score h2_count h3_count in
   Ok score)%result.

(** Line 90: [return min(score, 60)]. *)
Definition calculate_seo_score (title meta_desc : pystr)
    (headers : gmap pystr (list pystr)) : result Z :=
  (score <-! score_before_cap title meta_desc headers;
   Ok (Z.min score 60))%result.

(** The sub-scores: what each block adds to a score of 0. *)
Definition score_title (title : pystr) : Z := title_band 0 title.
Definition score_description (meta_desc : pystr) : Z := description_band 0 meta_desc.
Definition score_h1 (h1 : list pystr) : Z := h1_presence 0 h1.
Definition score_h2_h3 (h2 h3 : list pystr) : Z := h2_h3_usage 0 (len h2) (len h3).

(** The headings mapping has the three keys the scorer reads. *)
Definition scorable (headers : gmap pystr (list pystr)) : Prop :=
  is_Some (headers !! py "h1") /\ is_Some (headers !! py "h2")
  /\ is_Some (headers !! py "h3").

(** *** The scoring table of the specification (section 4.3), on lengths
    and element counts.  These follow the words of the specification and
    are compared with the code below. *)
Definition table_title (n : Z) : Z :=
  if decide (50 <= n <= 60) then 20
  else if decide (30 <= n <= 49 \/ 61 <= n <= 70) then 10
  else 5.

Definition table_description (n : Z) : Z :=
  if decide (120 <= n <= 160) then 20
  else if decide (80 <= n <= 119 \/ 161 <= n <= 200) then 10
  else 5.

Definition table_h1 (n : Z) : Z := if decide (1 <= n) then 20 else 0.
Definition table_h2 (n : Z) : Z := if decide (1 <= n) then 10 else 0.
Definition table_h3 (n : Z) : Z := if decide (2 <= n) then 10 else 0.

End Scorer.

(** ** Unicode data of the Python runtime

    [str.lower] and the regular expression class [\w] consult the
    interpreter's Unicode tables, which are not part of the repository.
    Their ASCII part is written out below; the rest is a parameter. *)
Record unicode_db : Type := {
  (** [s.lower()] for a [str] that holds a non-ASCII code point *)
  unicode_lower : pystr -> pystr;
  (** whether a code point above 127 is alphanumeric (a letter or a
      number of any script) *)
  unicode_isalnum : N -> bool
}.

Module Text.

Definition is_ascii (c : N) : bool := (c <? 128)%N.

Definition is_ascii_upper (c : N) : bool := ((65 <=? c) && (c <=? 90))%N.
Definition is_ascii_lower (c : N) : bool := ((97 <=? c) && (c <=? 122))%N.
Definition is_ascii_digit (c : N) : bool := ((48 <=? c) && (c <=? 57))%N.

Definition ascii_tolower (c : N) : N :=
  if is_ascii_upper c then (c + 32)%N else c.

(** [s.lower()] *)
Definition lower (db : unicode_db) (s : pystr) : pystr :=
  if forallb is_ascii s then List.map ascii_tolower s else unicode_lower db s.

(** [c.isspace()]: the white space of [str.strip()] with no argument. *)
Definition isspace (c : N) : bool :=
  (((9 <=? c) && (c <=? 13)) || ((28 <=? c) && (c <=? 32))
   || (c =? 133) || (c =? 160) || (c =? 5760)
   || ((8192 <=? c) && (c <=? 8202))
   || (c =? 8232) || (c =? 8233) || (c =? 8239) || (c =? 8287)
   || (c =? 12288))%N.

Fixpoint lstrip (s : pystr) : pystr :=
  match s with
  | c :: s' => if isspace c then lstrip s' else s
  | [] => []
  end.

(** [s.strip()] *)
Definition strip (s : pystr) : pystr := rev (lstrip (rev (lstrip s))).

(** Truth value of a [str] in a condition. *)
Definition truthy (s : pystr) : bool :=
  match s with
  | [] => false
  | _ :: _ => true
  end.

(** [s.startswith(prefix)] *)
Fixpoint startswith (s prefix : pystr) : bool :=
  match prefix, s with
  | [], _ => true
  | p :: prefix', c :: s' => (c =? p)%N && startswith s' prefix'
  | _ :: _, [] => false
  end.

End Text.

(** ** The keyword analyzer: [get_top_keywords] (lines 102-115) *)

Module Keywords.

(** *** The pattern [\b[a-zA-Z]{3,}\b] *)

(** The class [[a-zA-Z]]. *)
Definition in_alpha_class (c : N) : bool :=
  Text.is_ascii_lower c || Text.is_ascii_upper c.

(** The class [\w] of a [str] pattern: alphanumeric or underscore. *)
Definition is_word (db : unicode_db) (c : N) : bool :=
  if Text.is_ascii c
  then in_alpha_class c || Text.is_ascii_digit c || (c =? 95)%N
  else unicode_isalnum db c.

Definition is_word_opt (db : unicode_db) (c : option N) : bool :=
  match c with
  | Some c => is_word db c
  | None => false
  end.

(** [\b] between [prev] and [next] ([None] at either end of the text):
    exactly one side is a word character. *)
Definition at_boundary (db : unicode_db) (prev next : option N) : bool :=
  xorb (is_word_opt db prev) (is_word_opt db next).

(** Number of characters the greedy [[a-zA-Z]*] takes at the head. *)
Fixpoint alpha_run (s : pystr) : nat :=
  match s with
  | c :: s' => if in_alpha_class c then S (alpha_run s') else O
  | [] => O
  end.

(** Backtracking of [{3,}\b]: with [j] characters taken, accept when
    [j >= 3] and [\b] holds after them, otherwise give one back. *)
Fixpoint try_end (db : unicode_db) (s : pystr) (j : nat) : option nat :=
  match j with
  | O => None
  | S j' =>
      if (3 <=? j)%nat && at_boundary db (s !! j') (s !! j) then Some j
      else try_end db s j'
  end.

(** Length of the match of the pattern at the head of [s], if any;
    [prev] is the character before it. *)
Definition match_at (db : unicode_db) (prev : option N) (s : pystr) : option nat :=
  if at_boundary db prev (head s) then try_end db s (alpha_run s) else None.

(** [re.findall]: matches from left to right, not overlapping.  After a
    match of [j] characters the search resumes at its end: [skip] counts
    the characters of the last match still to pass. *)
Fixpoint scan (db : unicode_db) (prev : option N) (s : pystr) (skip : nat)
    : list pystr :=
  match s with
  | [] => []
  | c :: s' =>
      match skip with
      | S k => scan db (Some c) s' k
      | O =>
          match match_at db prev s with
          | Some j => take j s :: scan db (Some c) s' (pred j)
          | None => scan db (Some c) s' O
          end
      end
  end.

Definition findall (db : unicode_db) (s : pystr) : list pystr :=
  scan db None s O.

(** Line 107. *)
Definition words_of (db : unicode_db) (text : pystr) : list pystr :=
  findall db (Text.lower db text).

(** *** The dict [freq], in insertion order *)

(** [freq.get(w, default)] *)
Fixpoint dict_get (freq : list (pystr * Z)) (w : pystr) (default : Z) : Z :=
  match freq with
  | [] => default
  | (k, v) :: freq' => if decide (k = w) then v else dict_get freq' w default
  end.

(** [freq[w] = v]: a present key keeps its place, a new one goes last. *)
Fixpoint dict_set (freq : list (pystr * Z)) (w : pystr) (v : Z)
    : list (pystr * Z) :=
  match freq with
  | [] => [(w, v)]
  | (k, v') :: freq' =>
      if decide (k = w) then (k, v) :: freq'
      else (k, v') :: dict_set freq' w v
  end.

(** Lines 108-110. *)
Definition count_words (words : list pystr) : list (pystr * Z) :=
  fold_left (fun freq w => dict_set freq w (dict_get freq w 0 + 1)) words [].

(** *** [sorted] and slicing *)

(** A stable sort by ascending key, by insertion.  Python's sort is
    stable, and stability determines the sorted list, whichever the
    algorithm. *)
Fixpoint insert_by {A : Type} (key : A -> Z) (x : A) (l : list A) : list A :=
  match l with
  | [] => [x]
  | y :: l' => if key x <=? key y then x :: l else y :: insert_by key x l'
  end.

Fixpoint sort_by {A : Type} (key : A -> Z) (l : list A) : list A :=
  match l with
  | [] => []
  | x :: l' => insert_by key x (sort_by key l')
  end.

(** [sorted(l, key=key, reverse=reverse)]: with [reverse] the list is
    reversed, sorted stably and reversed again, which keeps equal keys
    in their original order. *)
Definition sorted {A : Type} (l : list A) (key : A -> Z) (reverse : bool)
    : list A :=
  if reverse then rev (sort_by key (rev l)) else sort_by key l.

(** The order of a list sorted stably by ascending key from a list in
    the order [before]: by key, and by [before] among equal keys. *)
Definition key_then {A : Type} (key : A -> Z) (before : A -> A -> Prop)
    (x y : A) : Prop :=
  key x < key y \/ (key x = key y /\ before x y).

(** [l[:n]] *)
Definition slice_to {A : Type} (l : list A) (n : Z) : list A :=
  if 0 <=? n then take (Z.to_nat n) l else take (Z.to_nat (len l + n)) l.

(** Lines 102-115. *)
Definition get_top_keywords (db : unicode_db) (text : pystr) (top_n : Z)
    : list (pystr * Z) :=
  let words := words_of db text in
  let freq := count_words words in
  let sorted_freq := sorted freq snd true in
  slice_to sorted_freq top_n.

(** *** Vocabulary of the specification *)

(** Number of occurrences of [w] in [words]. *)
Definition occurrences (w : pystr) (words : list pystr) : Z :=
  len (List.filter (fun w' => bool_decide (w' = w)) words).

(** Position of the first occurrence of [w] in [words] ([length words]
    when there is none). *)
Fixpoint first_index (w : pystr) (words : list pystr) : nat :=
  match words with
  | [] => O
  | w' :: words' => if decide (w' = w) then O else S (first_index w words')
  end.

(** [top] is ordered by count, largest first, and among equal counts by
    the first occurrence of the term in [words]. *)
Definition ranked (words : list pystr) (top : list (pystr * Z)) : Prop :=
  forall (i j : nat) (w1 w2 : pystr) (c1 c2 : Z),
    (i < j)%nat -> top !! i = Some (w1, c1) -> top !! j = Some (w2, c2) ->
    c2 <= c1 /\ (c1 = c2 -> (first_index w1 words < first_index w2 words)%nat).

(** The run just read, if there is one; [cur] holds it last character
    first. *)
Definition close_run (cur : pystr) : list pystr :=
  match cur with
  | [] => []
  | _ :: _ => [rev cur]
  end.

(** The maximal runs of word characters of [s], left to right; [cur] is
    the run being read. *)
Fixpoint word_runs_from (db : unicode_db) (cur : pystr) (s : pystr)
    : list pystr :=
  match s with
  | [] => close_run cur
  | c :: s' =>
      if is_word db c then word_runs_from db (c :: cur) s'
      else close_run cur ++ word_runs_from db [] s'
  end.

Definition word_runs (db : unicode_db) (s : pystr) : list pystr :=
  word_runs_from db [] s.

(** A run that the pattern accepts: letters of [[a-zA-Z]] only, three
    or more. *)
Definition is_token (run : pystr) : bool :=
  forallb in_alpha_class run && (3 <=? length run)%nat.

(** The tokenization as the specification words it: the runs of three or
    more ASCII letters of the lowercased text, every other character a
    separator.  [cur] is the run of letters being read, last first. *)
Fixpoint letter_runs_from (cur : pystr) (s : pystr) : list pystr :=
  match s with
  | [] => if (3 <=? length cur)%nat then [rev cur] else []
  | c :: s' =>
      if in_alpha_class c then letter_runs_from (c :: cur) s'
      else if (3 <=? length cur)%nat then rev cur :: letter_runs_from [] s'
      else letter_runs_from [] s'
  end.

Definition spec_tokens (db : unicode_db) (text : pystr) : list pystr :=
  letter_runs_from [] (Text.lower db text).

(** A table with nothing above ASCII: every other code point is left
    alone by [lower] and is not a word character. *)
Definition ascii_only : unicode_db :=
  {| unicode_lower := List.map Text.ascii_tolower;
     unicode_isalnum := fun _ => false |}.

End Keywords.

(** ** The user interface and the outside world *)

(** A piece of a rendered message: literal text, or an interpolated
    value of an f-string, kept as the value. *)
Inductive fragment : Type :=
| Lit (s : pystr)
| FStr (s : pystr)
| FInt (n : Z)
| FStrList (l : list pystr)
| FExn (e : exn).

(** The text elements of streamlit that the program uses. *)
Inductive element : Type :=
| Title | Subheader | Markdown | Write | Info | Success | Warning | Error.

(** What the program does to the page, in order. *)
Inductive event : Type :=
| Show (el : element) (body : list fragment)
| Columns (n : Z)
| TextInput (label default : pystr)
| Button (label : pystr)
| Metric (label : pystr) (value : Z) (delta : pystr)
(** [st.progress(num / den)] *)
| Progress (num den : Z)
(** [st.pyplot] of the cloud of [text], at most [max_words] words *)
| Pyplot (text : pystr) (max_words : Z)
| WriteKeywords (label : pystr) (keywords : list (pystr * Z)).

(** A computation that reads and extends the trace of events and may
    raise. *)
Definition io (A : Type) : Type := list event -> result A * list event.

Definition ret {A : Type} (a : A) : io A := fun tr => (Ok a, tr).

Definition bind {A B : Type} (m : io A) (k : A -> io B) : io B :=
  fun tr =>
    match m tr with
    | (Ok a, tr') => k a tr'
    | (Raise e, tr') => (Raise e, tr')
    end.

Definition emit (e : event) : io unit := fun tr => (Ok tt, tr ++ [e]).

(** A call whose outcome is decided outside the program; it may depend
    on what happened so far. *)
Definition call {A : Type} (f : list event -> result A) : io A :=
  fun tr => (f tr, tr).

Definition lift {A : Type} (r : result A) : io A := fun tr => (r, tr).

(** [try: body except Exception as e: handler e] *)
Definition try_except {A : Type} (body : io A) (handler : exn -> io A) : io A :=
  fun tr =>
    match body tr with
    | (Ok a, tr') => (Ok a, tr')
    | (Raise e, tr') => handler e tr'
    end.

Declare Scope io_scope.
Delimit Scope io_scope with io.
Notation "x <- m ;; k" := (bind m (fun x => k))
  (at level 100, m at next level, right associativity) : io_scope.
Notation "m ;;; k" := (bind m (fun _ => k))
  (at level 100, right associativity) : io_scope.

(** Reading a local variable that an earlier branch may not have bound. *)
Definition read_local {A : Type} (name : pystr) (v : option A) : io A :=
  match v with
  | Some a => ret a
  | None => lift (Raise (UnboundLocalError name))
  end.

(** An HTTP response of [requests]. *)
Record response : Type := { status_code : Z; text : pystr }.

(** An element of a parsed document. *)
Record tag : Type := {
  (** [tag.text] *)
  tag_text : pystr;
  (** [tag.get_text(strip=True)] *)
  tag_get_text_strip : pystr;
  (** [tag.get(name)] *)
  tag_get : pystr -> option pystr
}.

(** A parsed document, [BeautifulSoup(html, 'html.parser')]. *)
Record soup : Type := {
  (** [soup.find(name)] *)
  find : pystr -> option tag;
  (** [soup.find('meta', attrs={'name': name})] *)
  find_meta : pystr -> option tag;
  (** [soup.find_all(name)] *)
  find_all : pystr -> list tag;
  (** [soup.get_text(separator=' ', strip=True)] *)
  get_text : pystr
}.

(** The libraries and the user, as the program meets them. *)
Record world : Type := {
  unicode : unicode_db;
  (** [requests.get(url, timeout=10)] *)
  requests_get : pystr -> list event -> result response;
  (** [BeautifulSoup(html, 'html.parser')] *)
  html_parser : pystr -> soup;
  (** [WordCloud(...).generate(text)]: raises on a text without words *)
  wordcloud_generate : pystr -> result unit;
  (** [openai.Completion.create(...)]: the texts of the choices *)
  completion_create : pystr -> list event -> result (list pystr);
  (** what the user typed in the input labelled [label] *)
  text_input : pystr -> pystr -> pystr;
  (** whether the user pressed the button *)
  button : pystr -> bool
}.

(** ** The fetcher: [fetch_html] (lines 15-31) *)

(** The URL that is requested (lines 21-22). *)
Definition requested_url (url : pystr) : pystr :=
  if negb (Text.startswith url (py "http")) then py "https://" ++ url else url.

Definition could_not_retrieve : event :=
  Show Warning [Lit (py "Could not retrieve the page. Check URL or status code.")].

Definition error_fetching (e : exn) : event :=
  Show Error [Lit (py "Error fetching the URL: "); FExn e].

Definition fetch_html (w : world) (url : pystr) : io (option pystr) :=
  try_except
    (let url := requested_url url in
     response <- call (requests_get w url) ;;
     if status_code response =? 200 then ret (Some (text response))
     else (emit could_not_retrieve ;;; ret None))%io
    (fun e => (emit (error_fetching e) ;;; ret None)%io).

(** ** The extractor: [extract_onpage_data] (lines 33-51) *)

Definition extract_onpage_data (w : world) (html : pystr)
    : pystr * pystr * gmap pystr (list pystr) * pystr :=
  let soup := html_parser w html in
  let title_tag :=
    match find soup (py "title") with
    | Some t => Text.strip (tag_text t)
    | None => []
    end in
  let meta_desc_tag := find_meta soup (py "description") in
  let meta_desc :=
    match meta_desc_tag with
    | Some t =>
        match tag_get t (py "content") with
        | Some content => if Text.truthy content then Text.strip content else []
        | None => []
        end
    | None => []
    end in
  let headers :=
    fold_left
      (fun headers h => <[h := List.map tag_get_text_strip (find_all soup h)]> headers)
      [py "h1"; py "h2"; py "h3"; py "h4"] ∅ in
  let texts := get_text soup in
  (title_tag, meta_desc, headers, texts).

(** ** The word cloud: [generate_wordcloud] (lines 92-100) *)

Definition generate_wordcloud (w : world) (text : pystr) : io unit :=
  (_ <- lift (wordcloud_generate w text) ;;
   emit (Pyplot text 50))%io.

(** ** The advisory generator: [call_seo_genie] (lines 117-141) *)

Definition quote : pystr := [34%N].
Definition newline : pystr := [10%N].

(** Lines 122-127. *)
Definition genie_prompt (page_title meta_desc : pystr) : pystr :=
  newline
  ++ py "    You are an SEO Genie with a fun, witty persona. " ++ newline
  ++ py "    The user has a webpage with title: " ++ quote ++ page_title ++ quote
  ++ py " " ++ newline
  ++ py "    and meta description: " ++ quote ++ meta_desc ++ quote
  ++ py ". " ++ newline
  ++ py "    Give them 2-3 punchy suggestions to improve their SEO, in a friendly, genie-like tone."
  ++ newline
  ++ py "    ".

(** Lines 139-141. *)
Definition static_advice : pystr :=
  py "1. Ensure your title is eye-catching and includes your main keyword." ++ newline
  ++ py "2. Spice up your meta description with a strong call-to-action." ++ newline
  ++ py "3. Add more engaging headings to structure your content effectively.".

Definition static_advice_warning : event :=
  Show Warning
    [Lit (py "OpenAI API error or missing API key. Showing static advice instead.")].

(** [choices[0]] *)
Definition first_choice (choices : list pystr) : result pystr :=
  match choices with
  | c :: _ => Ok c
  | [] => Raise IndexError
  end.

Definition call_seo_genie (w : world) (page_title meta_desc : pystr) : io pystr :=
  let prompt := genie_prompt page_title meta_desc in
  try_except
    (choices <- call (completion_create w prompt) ;;
     choice <- lift (first_choice choices) ;;
     ret (Text.strip choice))%io
    (fun e => (emit static_advice_warning ;;; ret static_advice)%io).

(** ** The application: [main] (lines 147-225) *)

(** Lines 160-184 and 187-210: the analysis of one site.  The two blocks
    of the source differ in their two headings only.  The result is the
    binding of [score1] (resp. [score2]) that the block leaves: none
    when the page could not be fetched. *)
Definition analyze_site (w : world) (heading advice_heading : list fragment)
    (url : pystr) : io (option Z) :=
  (emit (Show Subheader heading) ;;;
   html <- fetch_html w url ;;
   match html with
   | Some ((_ :: _) as html) =>
       let '(title, desc, headers, texts) := extract_onpage_data w html in
       score <- lift (Scorer.calculate_seo_score title desc headers) ;;
       emit (Show Markdown [Lit (py "**Title:** "); FStr title]) ;;;
       emit (Show Markdown [Lit (py "**Meta Description:** "); FStr desc]) ;;;
       h1 <- lift (getitem headers (py "h1")) ;;
       emit (Show Markdown [Lit (py "**H1 Tags:** "); FStrList h1]) ;;;
       emit (Metric (py "SEO Health Score") score (py "/60")) ;;;
       emit (Progress score 60) ;;;
       emit (Show Markdown [Lit (py "### Keyword Density")]) ;;;
       generate_wordcloud w texts ;;;
       let top_keywords := Keywords.get_top_keywords (unicode w) texts 10 in
       emit (WriteKeywords (py "Top Keywords (approx.):") top_keywords) ;;;
       emit (Show Markdown advice_heading) ;;;
       suggestions <- call_seo_genie w title desc ;;
       emit (Show Info [FStr suggestions]) ;;;
       ret (Some score)
   | _ => ret None
   end)%io.

Definition comparison_title : event :=
  Show Title [Lit ([127881%N] ++ py " Comparison Summary")].

(** The three messages of the summary (lines 217, 219 and 221). *)
Definition site_leads (diff_score : Z) : event :=
  Show Success
    [Lit (py "Your site leads by "); FInt diff_score; Lit (py " points!")].

Definition competitor_leads (diff_score : Z) : event :=
  Show Warning
    [Lit (py "Competitor leads by "); FInt (- diff_score); Lit (py " points!")].

Definition tie : event :=
  Show Info
    [Lit (py "It" ++ [8217%N]
          ++ py "s a tie! Both sites have the same SEO Health Score.")].

(** Lines 214-221: the comparison summary. *)
Definition comparison_summary (score1 score2 : option Z) : io unit :=
  (emit comparison_title ;;;
   s1 <- read_local (py "score1") score1 ;;
   s2 <- read_local (py "score2") score2 ;;
   let diff_score := s1 - s2 in
   if 0 <? diff_score then emit (site_leads diff_score)
   else if diff_score <? 0 then emit (competitor_leads diff_score)
   else emit tie)%io.

(** The headings of the two analyses (lines 160, 182 and 187, 208). *)
Definition your_site_heading : list fragment := [Lit (py "Your Site Analysis")].
Definition your_site_advice_heading : list fragment :=
  [Lit (py "### SEO Genie" ++ [8217%N] ++ py "s Recommendations")].
Definition competitor_heading : list fragment :=
  [Lit (py "Competitor Site Analysis")].
Definition competitor_advice_heading : list fragment :=
  [Lit (py "### SEO Genie" ++ [8217%N] ++ py "s Competitor Tips")].

(** Lines 159-221: what a press of the button runs. *)
Definition analyze (w : world) (url1 url2 : pystr) : io unit :=
  (score1 <- (if Text.truthy url1 then
                analyze_site w your_site_heading your_site_advice_heading url1
              else ret None) ;;
   score2 <- (if Text.truthy url2 then
                analyze_site w competitor_heading competitor_advice_heading url2
              else ret None) ;;
   if Text.truthy url1 && Text.truthy url2
   then comparison_summary score1 score2
   else ret tt)%io.

Definition main (w : world) : io unit :=
  (emit (Show Title
           [Lit ([128302%N] ++ py " SEO Genie: Magic On-Page Analysis & Comparison")]) ;;;
   emit (Show Markdown
           [Lit (py "**Enter two websites below for a delightful SEO check and see how they compare.**")]) ;;;
   emit (Columns 2) ;;;
   emit (TextInput (py "Enter your Website URL") (py "example.com")) ;;;
   let url1 := text_input w (py "Enter your Website URL") (py "example.com") in
   emit (TextInput (py "Enter Competitor Website URL (optional)") (py "competitor.com")) ;;;
   let url2 := text_input w (py "Enter Competitor Website URL (optional)")
                 (py "competitor.com") in
   emit (Button (py "Analyze")) ;;;
   (if button w (py "Analyze") then analyze w url1 url2 else ret tt) ;;;
   emit (Show Markdown [Lit (py "---")]) ;;;
   emit (Show Write
           [Lit (py "**Pro Tip**: Fine-tune your content, meta tags, headings, and keep an eye on competitor strategies. "
                 ++ py "Use the magic of the SEO Genie to stay ahead!")]))%io.

(** ** Concrete pages and worlds, for the examples below *)

Module Scenario.

Definition plain_tag (s : pystr) : tag :=
  {| tag_text := s; tag_get_text_strip := Text.strip s; tag_get := fun _ => None |}.

(** A small page: a title, one h1, no description. *)
Definition example_page : soup :=
  {| find := fun name =>
       if decide (name = py "title") then Some (plain_tag (py " Example Domain "))
       else None;
     find_meta := fun _ => None;
     find_all := fun name =>
       if decide (name = py "h1") then [plain_tag (py "Example Domain")] else [];
     get_text := py "Example Domain This domain is for use in examples" |}.

(** A world in which the user keeps the two default URLs and presses
    the button, every page parses as [example_page], and no API key is
    configured; [get] answers the requests. *)
Definition world_with (get : pystr -> result response) : world :=
  {| unicode := Keywords.ascii_only;
     requests_get := fun url _ => get url;
     html_parser := fun _ => example_page;
     wordcloud_generate := fun _ => Ok tt;
     completion_create := fun _ _ => Raise (OpenAIError (py "No API key provided."));
     text_input := fun _ default => default;
     button := fun _ => true |}.

Definition page_html : pystr := py "<html><title> Example Domain </title></html>".

(** Every request is answered with status 201 and a body. *)
Definition created : world :=
  world_with (fun _ => Ok {| status_code := 201; text := page_html |}).

(** The first site answers 404, the competitor 200. *)
Definition first_site_missing : world :=
  world_with (fun url =>
    if decide (url = py "https://example.com")
    then Ok {| status_code := 404; text := py "Not Found" |}
    else Ok {| status_code := 200; text := page_html |}).

(** Every request times out. *)
Definition timed_out : world :=
  world_with (fun _ => Raise (RequestException (py "Read timed out."))).

(** Both sites answer 200. *)
Definition both_sites_up : world :=
  world_with (fun _ => Ok {| status_code := 200; text := page_html |}).

(** Headings with one h1, one h2 and two h3. *)
Definition full_headings : gmap pystr (list pystr) :=
  <[py "h1" := [py "Welcome"]]>
    (<[py "h2" := [py "About"]]>
       (<[py "h3" := [py "Team"; py "Contact"]]>
          (<[py "h4" := []]> ∅))).

(** Headings with the four keys and no element. *)
Definition empty_headings : gmap pystr (list pystr) :=
  <[py "h1" := []]> (<[py "h2" := []]> (<[py "h3" := []]> (<[py "h4" := []]> ∅))).

(** A text of [n] characters. *)
Definition text_of_length (n : nat) : pystr := repeat 120%N n.

End Scenario.

(** ** Vocabulary of the further properties *)

Module Vocabulary.

(** No white space at either end. *)
Definition trimmed (s : pystr) : Prop :=
  match head s with
  | Some c => Text.isspace c = false
  | None => True
  end
  /\ match last s with
     | Some c => Text.isspace c = false
     | None => True
     end.

(** The four heading levels that the extractor collects (line 45). *)
Definition heading_levels : list pystr := [py "h1"; py "h2"; py "h3"; py "h4"].

(** The first of the keys read by the scorer that [headers] lacks. *)
Definition first_missing_key (headers : gmap pystr (list pystr)) : option pystr :=
  match headers !! py "h1", headers !! py "h2", headers !! py "h3" with
  | None, _, _ => Some (py "h1")
  | Some _, None, _ => Some (py "h2")
  | Some _, Some _, None => Some (py "h3")
  | Some _, Some _, Some _ => None
  end.

(** Line 113: the table sorted, before the slice of line 115. *)
Definition full_ranking (db : unicode_db) (text : pystr) : list (pystr * Z) :=
  Keywords.sorted (Keywords.count_words (Keywords.words_of db text)) snd true.

(** The sum of the counts of a list of pairs. *)
Definition total (pairs : list (pystr * Z)) : Z :=
  foldr (fun pair acc => pair.2 + acc) 0 pairs.

(** An event that streamlit accepts: [st.progress] takes a fraction
    between 0 and 1. *)
Definition event_ok (e : event) : Prop :=
  match e with
  | Progress num den => 0 < den /\ 0 <= num <= den
  | _ => True
  end.

(** [m] keeps a page of accepted events a page of accepted events. *)
Definition keeps_page_ok {A : Type} (m : io A) : Prop :=
  forall tr, Forall event_ok tr -> Forall event_ok (m tr).2.

(** [m] raises no exception but those of [allowed]. *)
Definition raises_only {A : Type} (allowed : exn -> Prop) (m : io A) : Prop :=
  forall tr,
    match (m tr).1 with
    | Ok _ => True
    | Raise e => allowed e
    end.

(** The exceptions that leave [main]: those of the word cloud, and the
    two unbound scores. *)
Definition escapes_main (w : world) (e : exn) : Prop :=
  (exists text, wordcloud_generate w text = Raise e)
  \/ e = UnboundLocalError (py "score1")
  \/ e = UnboundLocalError (py "score2").

(** The events of the analysis of a page, up to the word cloud (lines
    166-176). *)
Definition page_report (title desc : pystr) (h1 : list pystr) (score : Z)
    : list event :=
  [Show Markdown [Lit (py "**Title:** "); FStr title];
   Show Markdown [Lit (py "**Meta Description:** "); FStr desc];
   Show Markdown [Lit (py "**H1 Tags:** "); FStrList h1];
   Metric (py "SEO Health Score") score (py "/60");
   Progress score 60;
   Show Markdown [Lit (py "### Keyword Density")]].

End Vocabulary.

(** ** Further worlds *)

Module Worlds.

(** The button is not pressed. *)
Definition idle : world :=
  {| unicode := Keywords.ascii_only;
     requests_get := fun _ _ => Raise (RequestException (py "unreachable"));
     html_parser := fun _ => Scenario.example_page;
     wordcloud_generate := fun _ => Ok tt;
     completion_create := fun _ _ => Raise (OpenAIError (py "No API key provided."));
     text_input := fun _ default => default;
     button := fun _ => false |}.

(** Pages are fetched, and the word cloud finds no word in them. *)
Definition no_words : world :=
  {| unicode := Keywords.ascii_only;
     requests_get := fun _ _ =>
       Ok {| status_code := 200; text := Scenario.page_html |};
     html_parser := fun _ => Scenario.example_page;
     wordcloud_generate := fun _ =>
       Raise (ValueError (py "We need at least 1 word to plot a word cloud, got 0."));
     completion_create := fun _ _ => Raise (OpenAIError (py "No API key provided."));
     text_input := fun _ default => default;
     button := fun _ => true |}.

(** Every request is answered with status 200 and an empty body. *)
Definition empty_body : world :=
  Scenario.world_with (fun _ => Ok {| status_code := 200; text := [] |}).

(** The competitor answers 404, the first site 200. *)
Definition competitor_missing : world :=
  Scenario.world_with (fun url =>
    if decide (url = py "https://competitor.com")
    then Ok {| status_code := 404; text := py "Not Found" |}
    else Ok {| status_code := 200; text := Scenario.page_html |}).

(** The service answers with one choice. *)
Definition with_service : world :=
  {| unicode := Keywords.ascii_only;
     requests_get := fun _ _ =>
       Ok {| status_code := 200; text := Scenario.page_html |};
     html_parser := fun _ => Scenario.example_page;
     wordcloud_generate := fun _ => Ok tt;
     completion_create := fun _ _ =>
       Ok [newline ++ py "  Polish your title!  " ++ newline];
     text_input := fun _ default => default;
     button := fun _ => true |}.

(** Headings like [Scenario.full_headings], with other texts and other
    h4 elements. *)
Definition other_headings : gmap pystr (list pystr) :=
  <[py "h1" := [py "Hello"]]>
    (<[py "h2" := [py "News"]]>
       (<[py "h3" := [py "Today"; py "Tomorrow"]]>
          (<[py "h4" := [py "Fine print"]]> ∅))).

(** Headings without the key h2. *)
Definition no_h2_key : gmap pystr (list pystr) :=
  <[py "h1" := [py "Hello"]]> (<[py "h3" := []]> ∅).

End Worlds.

(** * Properties *)

Lemma len_nonneg {A : Type} (l : list A) : 0 <= len l.
Proof. unfold len. lia. Qed.

Lemma len_repeat {A : Type} (x : A) (n : nat) : len (repeat x n) = Z.of_nat n.
Proof. unfold len. now rewrite repeat_length. Qed.

Lemma getitem_Some {V : Type} (d : gmap pystr V) (k : pystr) (v : V) :
  d !! k = Some v -> getitem d k = Ok v.
Proof. intros H. unfold getitem. now rewrite H. Qed.

(** ** The scorer *)

Module ScorerFacts.
Import Scorer.

(** Decides the comparisons of a band, turning each into a hypothesis. *)
Ltac bands :=
  repeat match goal with
    | |- context [decide ?P] => destruct (decide P)
    | |- context [Z.leb ?a ?b] => destruct (Z.leb_spec a b)
    | |- context [Z.ltb ?a ?b] => destruct (Z.ltb_spec a b)
    end;
  simpl; try lia.

Lemma title_band_table (score : Z) (title : pystr) :
  title_band score title = score + table_title (len title).
Proof. unfold title_band, table_title. bands. Qed.

Lemma description_band_table (score : Z) (meta_desc : pystr) :
  description_band score meta_desc = score + table_description (len meta_desc).
Proof. unfold description_band, table_description. bands. Qed.

Lemma h1_presence_table (score : Z) (h1 : list pystr) :
  h1_presence score h1 = score + table_h1 (len h1).
Proof. unfold h1_presence, table_h1. bands. Qed.

Lemma h2_h3_usage_table (score h2_count h3_count : Z) :
  h2_h3_usage score h2_count h3_count
  = score + table_h2 h2_count + table_h3 h3_count.
Proof. unfold h2_h3_usage, table_h2, table_h3. bands. Qed.

(** With the three keys present, no lookup raises and [score] is the sum
    of what the four blocks add. *)
Lemma score_before_cap_sum (title meta_desc : pystr)
    (headers : gmap pystr (list pystr)) (h1 h2 h3 : list pystr) :
  headers !! py "h1" = Some h1 ->
  headers !! py "h2" = Some h2 ->
  headers !! py "h3" = Some h3 ->
  score_before_cap title meta_desc headers
  = Ok (score_title title + score_description meta_desc
        + score_h1 h1 + score_h2_h3 h2 h3).
Proof.
  intros H1 H2 H3. unfold score_before_cap.
  rewrite (getitem_Some _ _ _ H1), (getitem_Some _ _ _ H2), (getitem_Some _ _ _ H3).
  simpl. f_equal.
  unfold score_title, score_description, score_h1, score_h2_h3.
  rewrite !h2_h3_usage_table, !h1_presence_table,
    !description_band_table, !title_band_table. lia.
Qed.

Lemma table_title_range (n : Z) : 5 <= table_title n <= 20.
Proof. unfold table_title. bands. Qed.

Lemma table_description_range (n : Z) : 5 <= table_description n <= 20.
Proof. unfold table_description. bands. Qed.

Lemma table_h1_range (n : Z) : 0 <= table_h1 n <= 20.
Proof. unfold table_h1. bands. Qed.

Lemma table_h2_range (n : Z) : 0 <= table_h2 n <= 10.
Proof. unfold table_h2. bands. Qed.

Lemma table_h3_range (n : Z) : 0 <= table_h3 n <= 10.
Proof. unfold table_h3. bands. Qed.

Lemma sub_scores_table (title meta_desc : pystr) (h1 h2 h3 : list pystr) :
  score_title title = table_title (len title)
  /\ score_description meta_desc = table_description (len meta_desc)
  /\ score_h1 h1 = table_h1 (len h1)
  /\ score_h2_h3 h2 h3 = table_h2 (len h2) + table_h3 (len h3).
Proof.
  unfold score_title, score_description, score_h1, score_h2_h3.
  rewrite h2_h3_usage_table, h1_presence_table,
    description_band_table, title_band_table. repeat split; lia.
Qed.

(** The sum of the sub-scores lies between 10 and 80. *)
Lemma sub_scores_range (title meta_desc : pystr) (h1 h2 h3 : list pystr) :
  10 <= score_title title + score_description meta_desc
        + score_h1 h1 + score_h2_h3 h2 h3 <= 80.
Proof.
  destruct (sub_scores_table title meta_desc h1 h2 h3) as (-> & -> & -> & ->).
  pose proof (table_title_range (len title)).
  pose proof (table_description_range (len meta_desc)).
  pose proof (table_h1_range (len h1)).
  pose proof (table_h2_range (len h2)).
  pose proof (table_h3_range (len h3)). lia.
Qed.

Lemma scorable_lookups (headers : gmap pystr (list pystr)) :
  scorable headers ->
  exists h1 h2 h3, headers !! py "h1" = Some h1 /\ headers !! py "h2" = Some h2
                   /\ headers !! py "h3" = Some h3.
Proof. intros ([h1 ?] & [h2 ?] & [h3 ?]). eauto 7. Qed.

(** Without one of the keys the lookup raises. *)
Lemma calculate_seo_score_missing_h1 (title meta_desc : pystr)
    (headers : gmap pystr (list pystr)) :
  headers !! py "h1" = None ->
  calculate_seo_score title meta_desc headers = Raise (KeyError (py "h1")).
Proof.
  intros H. unfold calculate_seo_score, score_before_cap, getitem.
  now rewrite H.
Qed.

(** The mapping that the extractor builds has the four keys. *)
Lemma extract_onpage_data_scorable (w : world) (html : pystr) :
  scorable (extract_onpage_data w html).1.2
  /\ is_Some ((extract_onpage_data w html).1.2 !! py "h4").
Proof.
  unfold extract_onpage_data, scorable. cbn [fst snd fold_left].
  repeat split.
  - rewrite !lookup_insert_ne by (vm_compute; discriminate).
    rewrite lookup_insert_eq. eauto.
  - rewrite !lookup_insert_ne by (vm_compute; discriminate).
    rewrite lookup_insert_eq. eauto.
  - rewrite !lookup_insert_ne by (vm_compute; discriminate).
    rewrite lookup_insert_eq. eauto.
  - rewrite lookup_insert_eq. eauto.
Qed.

Lemma full_headings_scorable : scorable Scenario.full_headings.
Proof. repeat split; eexists; reflexivity. Qed.

Lemma empty_headings_scorable : scorable Scenario.empty_headings.
Proof. repeat split; eexists; reflexivity. Qed.

(** C1. The scorer awards the points of the table of section 4.3: with
    the heading lists [h1], [h2], [h3] of the mapping, the result is the
    sum of the five table entries, capped at 60; each block of the code
    adds its table entry; and the title and description bands change
    exactly at 49/50, 60/61, 70/71 and at 119/120, 160/161, 200/201. *)
Theorem calculate_seo_score_table (title meta_desc : pystr)
    (headers : gmap pystr (list pystr)) (h1 h2 h3 : list pystr) :
  headers !! py "h1" = Some h1 ->
  headers !! py "h2" = Some h2 ->
  headers !! py "h3" = Some h3 ->
  calculate_seo_score title meta_desc headers
  = Ok (Z.min (table_title (len title) + table_description (len meta_desc)
               + table_h1 (len h1) + table_h2 (len h2) + table_h3 (len h3)) 60)
  /\ (score_title title = table_title (len title)
      /\ score_description meta_desc = table_description (len meta_desc)
      /\ score_h1 h1 = table_h1 (len h1)
      /\ score_h2_h3 h2 h3 = table_h2 (len h2) + table_h3 (len h3))
  /\ List.map (fun n => score_title (Scenario.text_of_length n))
       [49; 50; 60; 61; 70; 71]%nat = [10; 20; 20; 10; 10; 5]
  /\ List.map (fun n => score_description (Scenario.text_of_length n))
       [119; 120; 160; 161; 200; 201]%nat = [10; 20; 20; 10; 10; 5].
Proof.
  intros H1 H2 H3. split; [|split; [apply sub_scores_table|split; reflexivity]].
  unfold calculate_seo_score.
  rewrite (score_before_cap_sum _ _ _ _ _ _ H1 H2 H3). simpl.
  destruct (sub_scores_table title meta_desc h1 h2 h3) as (-> & -> & -> & ->).
  do 2 f_equal. lia.
Qed.

Lemma calculate_seo_score_table_witness :
  Scenario.full_headings !! py "h1" = Some [py "Welcome"]
  /\ Scenario.full_headings !! py "h2" = Some [py "About"]
  /\ Scenario.full_headings !! py "h3" = Some [py "Team"; py "Contact"]
  /\ calculate_seo_score (Scenario.text_of_length 55) (Scenario.text_of_length 140)
       Scenario.full_headings = Ok 60.
Proof.
  split; [reflexivity|]. split; [reflexivity|]. split; [reflexivity|].
  exact (proj1 (calculate_seo_score_table (Scenario.text_of_length 55)
                  (Scenario.text_of_length 140) Scenario.full_headings
                  [py "Welcome"] [py "About"] [py "Team"; py "Contact"]
                  eq_refl eq_refl eq_refl)).
Defined.

(** C2. On a headings mapping with its keys, the scorer returns an
    integer between 0 and 60. *)
Theorem calculate_seo_score_range (title meta_desc : pystr)
    (headers : gmap pystr (list pystr)) :
  scorable headers ->
  exists score, calculate_seo_score title meta_desc headers = Ok score
                /\ 0 <= score <= 60.
Proof.
  intros Hs. destruct (scorable_lookups headers Hs) as (h1 & h2 & h3 & H1 & H2 & H3).
  unfold calculate_seo_score.
  rewrite (score_before_cap_sum _ _ _ _ _ _ H1 H2 H3). simpl.
  eexists. split; [reflexivity|].
  pose proof (sub_scores_range title meta_desc h1 h2 h3). lia.
Qed.

Lemma calculate_seo_score_range_witness :
  scorable Scenario.empty_headings
  /\ exists score, calculate_seo_score [] [] Scenario.empty_headings = Ok score
                   /\ 0 <= score <= 60.
Proof.
  split; [exact empty_headings_scorable|].
  exact (calculate_seo_score_range [] [] Scenario.empty_headings
           empty_headings_scorable).
Defined.

(** C3 as stated fails: for a title of 55 characters, a description of
    140, one h1, one h2 and two h3 the sub-scores are 20, 20, 20 and
    10 + 10, and [score] is 80 when it reaches the cap, which turns it
    into 60. *)
Lemma cap_is_not_redundant :
  score_title (Scenario.text_of_length 55) = 20
  /\ score_description (Scenario.text_of_length 140) = 20
  /\ score_h1 [py "Welcome"] = 20
  /\ score_h2_h3 [py "About"] [py "Team"; py "Contact"] = 10 + 10
  /\ score_before_cap (Scenario.text_of_length 55) (Scenario.text_of_length 140)
       Scenario.full_headings = Ok 80
  /\ calculate_seo_score (Scenario.text_of_length 55) (Scenario.text_of_length 140)
       Scenario.full_headings = Ok 60.
Proof. repeat split. Qed.

(** C3, amended. The sum of the four sub-scores never exceeds 80, and
    the scorer returns the smaller of the sum and 60: the sum itself
    when it is at most 60, and 60 otherwise. *)
Theorem cap_at_60 (title meta_desc : pystr)
    (headers : gmap pystr (list pystr)) (h1 h2 h3 : list pystr) :
  headers !! py "h1" = Some h1 ->
  headers !! py "h2" = Some h2 ->
  headers !! py "h3" = Some h3 ->
  let sum := score_title title + score_description meta_desc
             + score_h1 h1 + score_h2_h3 h2 h3 in
  sum <= 80
  /\ score_before_cap title meta_desc headers = Ok sum
  /\ calculate_seo_score title meta_desc headers = Ok (Z.min sum 60)
  /\ (sum <= 60 -> calculate_seo_score title meta_desc headers = Ok sum)
  /\ (60 < sum -> calculate_seo_score title meta_desc headers = Ok 60).
Proof.
  intros H1 H2 H3 sum.
  pose proof (sub_scores_range title meta_desc h1 h2 h3) as Hr. fold sum in Hr.
  assert (Hc : calculate_seo_score title meta_desc headers = Ok (Z.min sum 60)).
  { unfold calculate_seo_score.
    now rewrite (score_before_cap_sum _ _ _ _ _ _ H1 H2 H3). }
  split; [lia|]. split; [exact (score_before_cap_sum _ _ _ _ _ _ H1 H2 H3)|].
  split; [exact Hc|]. rewrite Hc.
  split; intros Hle; f_equal; lia.
Qed.

Lemma cap_at_60_witness :
  Scenario.full_headings !! py "h1" = Some [py "Welcome"]
  /\ Scenario.full_headings !! py "h2" = Some [py "About"]
  /\ Scenario.full_headings !! py "h3" = Some [py "Team"; py "Contact"]
  /\ score_before_cap (Scenario.text_of_length 55) (Scenario.text_of_length 140)
       Scenario.full_headings = Ok 80.
Proof.
  split; [reflexivity|]. split; [reflexivity|]. split; [reflexivity|].
  exact (proj1 (proj2 (cap_at_60 (Scenario.text_of_length 55)
                         (Scenario.text_of_length 140) Scenario.full_headings
                         [py "Welcome"] [py "About"] [py "Team"; py "Contact"]
                         eq_refl eq_refl eq_refl))).
Defined.

(** C10. On a headings mapping with its keys, the scorer returns a value
    between 10 and 60: the title band and the description band add at
    least 5 each. *)
Theorem calculate_seo_score_at_least_10 (title meta_desc : pystr)
    (headers : gmap pystr (list pystr)) :
  scorable headers ->
  5 <= score_title title
  /\ 5 <= score_description meta_desc
  /\ exists score, calculate_seo_score title meta_desc headers = Ok score
                   /\ 10 <= score <= 60.
Proof.
  intros Hs. destruct (scorable_lookups headers Hs) as (h1 & h2 & h3 & H1 & H2 & H3).
  destruct (sub_scores_table title meta_desc h1 h2 h3) as (Ht & Hd & _ & _).
  split; [rewrite Ht; apply table_title_range|].
  split; [rewrite Hd; apply table_description_range|].
  unfold calculate_seo_score.
  rewrite (score_before_cap_sum _ _ _ _ _ _ H1 H2 H3). simpl.
  eexists. split; [reflexivity|].
  pose proof (sub_scores_range title meta_desc h1 h2 h3). lia.
Qed.

Lemma calculate_seo_score_at_least_10_witness :
  scorable Scenario.empty_headings
  /\ 5 <= score_title []
  /\ 5 <= score_description []
  /\ exists score, calculate_seo_score [] [] Scenario.empty_headings = Ok score
                   /\ 10 <= score <= 60.
Proof.
  split; [exact empty_headings_scorable|].
  exact (calculate_seo_score_at_least_10 [] [] Scenario.empty_headings
           empty_headings_scorable).
Defined.

(** C9 as stated fails: a title of 71 characters is as far from 55 as
    one of 39, and scores less. *)
Lemma score_title_not_monotone_in_distance :
  Z.abs (len (Scenario.text_of_length 71) - 55)
    <= Z.abs (len (Scenario.text_of_length 39) - 55)
  /\ score_title (Scenario.text_of_length 71) = 5
  /\ score_title (Scenario.text_of_length 39) = 10.
Proof. repeat split. vm_compute. discriminate. Qed.

(** C9, amended. Among titles whose lengths lie on the same side of the
    midpoint 55, the title sub-score does not increase with the distance
    of the length from 55. *)
Theorem score_title_monotone_on_each_side (t1 t2 : pystr) :
  (len t1 <= 55 /\ len t2 <= 55) \/ (55 <= len t1 /\ 55 <= len t2) ->
  Z.abs (len t1 - 55) <= Z.abs (len t2 - 55) ->
  score_title t2 <= score_title t1.
Proof.
  intros Hside Hdist. unfold score_title.
  rewrite !title_band_table. unfold table_title. bands.
Qed.

Lemma score_title_monotone_on_each_side_witness :
  ((len (Scenario.text_of_length 58) <= 55 /\ len (Scenario.text_of_length 66) <= 55)
   \/ (55 <= len (Scenario.text_of_length 58) /\ 55 <= len (Scenario.text_of_length 66)))
  /\ Z.abs (len (Scenario.text_of_length 58) - 55)
       <= Z.abs (len (Scenario.text_of_length 66) - 55)
  /\ score_title (Scenario.text_of_length 66) <= score_title (Scenario.text_of_length 58).
Proof.
  assert (Hside : (len (Scenario.text_of_length 58) <= 55
                   /\ len (Scenario.text_of_length 66) <= 55)
                  \/ (55 <= len (Scenario.text_of_length 58)
                      /\ 55 <= len (Scenario.text_of_length 66))).
  { right. split; vm_compute; discriminate. }
  assert (Hdist : Z.abs (len (Scenario.text_of_length 58) - 55)
                  <= Z.abs (len (Scenario.text_of_length 66) - 55)).
  { vm_compute. discriminate. }
  split; [exact Hside|]. split; [exact Hdist|].
  exact (score_title_monotone_on_each_side _ _ Hside Hdist).
Defined.

End ScorerFacts.

(** ** The tokenizer *)

Module TokenizerFacts.
Import Keywords.

Section WithUnicode.
Variable db : unicode_db.

Lemma alpha_is_word (c : N) : in_alpha_class c = true -> is_word db c = true.
Proof.
  unfold is_word, in_alpha_class, Text.is_ascii, Text.is_ascii_lower,
    Text.is_ascii_upper.
  intros H. destruct (N.ltb_spec c 128) as [_|Hc].
  - now rewrite H.
  - exfalso. revert H.
    destruct (N.leb_spec 97 c), (N.leb_spec c 122), (N.leb_spec 65 c),
      (N.leb_spec c 90); simpl; intros; try discriminate; lia.
Qed.

Lemma not_word_not_alpha (c : N) : is_word db c = false -> in_alpha_class c = false.
Proof.
  intros H. destruct (in_alpha_class c) eqn:E; [|reflexivity].
  apply alpha_is_word in E. congruence.
Qed.

(** The greedy letters stop before a character that is no word
    character, and at the end of the text. *)
Lemma alpha_run_head_not_word (s : pystr) :
  is_word_opt db (head s) = false -> alpha_run s = O.
Proof.
  destruct s as [|c s]; [reflexivity|]. simpl. intros H.
  now rewrite (not_word_not_alpha c H).
Qed.

Lemma try_end_none (s : pystr) (j : nat) :
  (forall j', (j' < j)%nat -> (3 <=? S j')%nat = true ->
              at_boundary db (s !! j') (s !! S j') = false) ->
  try_end db s j = None.
Proof.
  induction j as [|j IH]; intros H; [reflexivity|].
  cbn [try_end]. destruct (3 <=? S j)%nat eqn:E3; simpl.
  - rewrite (H j) by (auto; lia). apply IH. intros. apply H; auto; lia.
  - apply IH. intros. apply H; auto; lia.
Qed.

(** Where the text starts with a character that is no word character,
    or is over, nothing matches. *)
Lemma match_at_head_not_word (prev : option N) (s : pystr) :
  is_word_opt db (head s) = false -> match_at db prev s = None.
Proof.
  intros H. unfold match_at. rewrite (alpha_run_head_not_word s H).
  now destruct (at_boundary db prev (head s)).
Qed.

(** Between two word characters nothing starts. *)
Lemma match_at_inside_word (p c : N) (s : pystr) :
  is_word db p = true -> is_word db c = true ->
  match_at db (Some p) (c :: s) = None.
Proof.
  intros Hp Hc. unfold match_at, at_boundary. simpl. now rewrite Hp, Hc.
Qed.

(** [scan] looks at [prev] only to know whether it is a word character. *)
Lemma scan_prev_irrelevant (p p' : option N) (s : pystr) (skip : nat) :
  is_word_opt db p = is_word_opt db p' -> scan db p s skip = scan db p' s skip.
Proof.
  intros H. destruct s as [|c s]; [reflexivity|].
  destruct skip; [|reflexivity].
  cbn [scan]. unfold match_at, at_boundary. now rewrite H.
Qed.

Lemma scan_head_not_word (p : option N) (s : pystr) :
  is_word_opt db (head s) = false -> scan db p s O = scan db None s O.
Proof.
  intros H. destruct s as [|c s]; [reflexivity|].
  cbn [scan]. now rewrite !match_at_head_not_word.
Qed.

(** Passing the rest of a word after a failed attempt at its start. *)
Lemma scan_inside_word (p : N) (r rest : pystr) :
  is_word db p = true -> Forall (fun c => is_word db c = true) r ->
  is_word_opt db (head rest) = false ->
  scan db (Some p) (r ++ rest) O = scan db None rest O.
Proof.
  intros Hp Hr Hrest. revert p Hp.
  induction Hr as [|c r Hc Hr IH]; intros p Hp.
  - now apply scan_head_not_word.
  - cbn [app scan]. rewrite (match_at_inside_word p c _ Hp Hc). now apply IH.
Qed.

(** Passing the characters of a match. *)
Lemma scan_skip (p : option N) (a rest : pystr) :
  is_word_opt db (head rest) = false ->
  scan db p (a ++ rest) (length a) = scan db None rest O.
Proof.
  intros Hrest. revert p. induction a as [|c a IH]; intros p.
  - now apply scan_head_not_word.
  - cbn [app length scan]. apply IH.
Qed.

Lemma alpha_run_all (r rest : pystr) :
  forallb in_alpha_class r = true -> is_word_opt db (head rest) = false ->
  alpha_run (r ++ rest) = length r.
Proof.
  intros Hr Hrest. induction r as [|c r IH].
  - now apply alpha_run_head_not_word.
  - simpl in *. apply andb_prop in Hr as [-> Hr]. now rewrite IH.
Qed.

(** The letters taken are letters, and when they stop inside the word
    the next character is a word character. *)
Lemma alpha_run_not_all (r rest : pystr) :
  Forall (fun c => is_word db c = true) r ->
  forallb in_alpha_class r = false ->
  (alpha_run (r ++ rest) < length r)%nat.
Proof.
  intros Hr Hn. induction Hr as [|c r Hc Hr IH]; [discriminate|].
  simpl in *. destruct (in_alpha_class c); simpl in *; [|lia].
  specialize (IH Hn). lia.
Qed.

Lemma lookup_word_run (r rest : pystr) (j : nat) :
  Forall (fun c => is_word db c = true) r -> (j < length r)%nat ->
  is_word_opt db ((r ++ rest) !! j) = true.
Proof.
  intros Hr Hj. rewrite lookup_app_l by exact Hj.
  destruct (lookup_lt_is_Some_2 r j Hj) as [c Hc]. rewrite Hc. simpl.
  rewrite Forall_forall in Hr. apply Hr. eapply list_elem_of_lookup_2, Hc.
Qed.

Lemma try_end_accept (s : pystr) (j : nat) :
  (3 <=? S j)%nat = true -> at_boundary db (s !! j) (s !! S j) = true ->
  try_end db s (S j) = Some (S j).
Proof. intros H3 Hb. cbn [try_end]. now rewrite H3, Hb. Qed.

Lemma boundary_after_word (r rest : pystr) (n : nat) :
  Forall (fun c => is_word db c = true) r -> length r = S n ->
  is_word_opt db (head rest) = false ->
  at_boundary db ((r ++ rest) !! n) ((r ++ rest) !! S n) = true.
Proof.
  intros Hr Hn Hrest. unfold at_boundary.
  rewrite lookup_word_run by (auto; lia).
  rewrite lookup_app_r by lia. rewrite Hn, Nat.sub_diag.
  replace (rest !! O) with (head rest) by now destruct rest.
  now rewrite Hrest.
Qed.

Lemma no_boundary_inside_word (r rest : pystr) (j : nat) :
  Forall (fun c => is_word db c = true) r -> (S j < length r)%nat ->
  at_boundary db ((r ++ rest) !! j) ((r ++ rest) !! S j) = false.
Proof.
  intros Hr Hj. unfold at_boundary.
  rewrite !lookup_word_run by (auto; lia). reflexivity.
Qed.

(** The pattern at the start of a word: it matches the whole word when
    the word is three or more letters, and nothing otherwise. *)
Lemma match_at_word_start (prev : option N) (r rest : pystr) :
  is_word_opt db prev = false -> r <> [] ->
  Forall (fun c => is_word db c = true) r ->
  is_word_opt db (head rest) = false ->
  match_at db prev (r ++ rest) = if is_token r then Some (length r) else None.
Proof.
  intros Hprev Hne Hr Hrest. unfold match_at.
  assert (Hhead : is_word_opt db (head (r ++ rest)) = true).
  { destruct r as [|c r']; [congruence|]. simpl. now inversion Hr. }
  assert (Hb : at_boundary db prev (head (r ++ rest)) = true).
  { unfold at_boundary. now rewrite Hprev, Hhead. }
  rewrite Hb. unfold is_token.
  destruct (forallb in_alpha_class r) eqn:Ha; cbn [andb].
  - rewrite (alpha_run_all r rest Ha Hrest).
    destruct (3 <=? length r)%nat eqn:E3.
    + destruct (length r) as [|n] eqn:En; [discriminate|].
      apply try_end_accept; [exact E3|].
      now apply boundary_after_word.
    + apply try_end_none. intros j' Hj H3.
      apply Nat.leb_le in H3. apply Nat.leb_gt in E3. lia.
  - apply try_end_none. intros j' Hj _. apply no_boundary_inside_word; [exact Hr|].
    pose proof (alpha_run_not_all r rest Hr Ha). lia.
Qed.

(** The scan over one word and up to the next character that is no word
    character. *)
Lemma scan_word (prev : option N) (r rest : pystr) :
  is_word_opt db prev = false -> r <> [] ->
  Forall (fun c => is_word db c = true) r ->
  is_word_opt db (head rest) = false ->
  scan db prev (r ++ rest) O
  = (if is_token r then [r] else []) ++ scan db None rest O.
Proof.
  intros Hprev Hne Hr Hrest.
  pose proof (match_at_word_start prev r rest Hprev Hne Hr Hrest) as Hm.
  destruct r as [|c r']; [congruence|].
  change ((c :: r') ++ rest) with (c :: (r' ++ rest)) in *.
  cbn [scan]. rewrite Hm. destruct (is_token (c :: r')).
  - cbn [length pred]. rewrite (scan_skip _ r' rest Hrest).
    change (c :: r' ++ rest) with ((c :: r') ++ rest).
    rewrite (take_app_length' (c :: r') rest) by reflexivity. reflexivity.
  - inversion Hr; subst. now apply scan_inside_word.
Qed.

(** Every text starts with a word, possibly empty, that ends at a
    character that is no word character or at the end of the text. *)
Lemma split_first_word (s : pystr) :
  exists r rest, s = r ++ rest /\ Forall (fun c => is_word db c = true) r
                 /\ is_word_opt db (head rest) = false.
Proof.
  induction s as [|c s (r & rest & -> & Hr & Hrest)].
  - exists [], []. repeat split. constructor.
  - destruct (is_word db c) eqn:Hc.
    + exists (c :: r), rest. repeat split; [now constructor|exact Hrest].
    + exists [], (c :: r ++ rest). repeat split; [constructor|exact Hc].
Qed.

Lemma word_runs_from_word (cur r rest : pystr) :
  Forall (fun c => is_word db c = true) r ->
  is_word_opt db (head rest) = false ->
  word_runs_from db cur (r ++ rest)
  = close_run (rev r ++ cur) ++ word_runs_from db [] rest.
Proof.
  intros Hr Hrest. revert cur. induction Hr as [|c r Hc Hr IH]; intros cur.
  - simpl. destruct rest as [|d rest]; simpl.
    + now rewrite app_nil_r.
    + simpl in Hrest. now rewrite Hrest.
  - cbn [app word_runs_from]. rewrite Hc, IH. simpl rev.
    now rewrite <- app_assoc.
Qed.

Lemma close_run_rev (r : pystr) : r <> [] -> close_run (rev r) = [r].
Proof.
  intros Hne. pose proof (rev_involutive r) as Hrr.
  destruct (rev r) as [|x l] eqn:E.
  - simpl in Hrr. congruence.
  - unfold close_run. now rewrite Hrr.
Qed.

(** The matches of the pattern are the words that are three or more
    letters. *)
Lemma findall_word_runs (s : pystr) :
  findall db s = List.filter is_token (word_runs db s).
Proof.
  unfold findall, word_runs.
  remember (length s) as n eqn:Hn. revert s Hn.
  induction n as [n IH] using lt_wf_ind. intros s Hn.
  destruct (split_first_word s) as (r & rest & -> & Hr & Hrest).
  destruct r as [|c r].
  - destruct rest as [|d rest]; [reflexivity|].
    simpl in Hrest. cbn [app scan word_runs_from close_run].
    rewrite (match_at_head_not_word None (d :: rest)) by exact Hrest.
    rewrite Hrest.
    rewrite (scan_prev_irrelevant (Some d) None) by exact Hrest.
    apply (IH (length rest)); [subst; simpl; lia|reflexivity].
  - rewrite scan_word by (auto; discriminate).
    rewrite word_runs_from_word by assumption.
    rewrite app_nil_r, close_run_rev by discriminate.
    rewrite List.filter_app. f_equal.
    + apply (IH (length rest)); [|reflexivity].
      subst. rewrite length_app. simpl. lia.
Qed.

Lemma forallb_rev {A : Type} (f : A -> bool) (l : list A) :
  forallb f (rev l) = forallb f l.
Proof.
  induction l as [|x l IH]; [reflexivity|].
  simpl. rewrite forallb_app, IH. simpl. rewrite andb_true_r. apply andb_comm.
Qed.

(** Where every word character of the text is a letter of [[a-zA-Z]],
    the words are the runs of letters, as the specification has it. *)
Lemma letter_runs_word_runs (cur s : pystr) :
  forallb in_alpha_class cur = true ->
  Forall (fun c => is_word db c = in_alpha_class c) s ->
  List.filter is_token (word_runs_from db cur s) = letter_runs_from cur s.
Proof.
  intros Hcur Hs. revert cur Hcur.
  assert (Hclose : forall cur, forallb in_alpha_class cur = true ->
            List.filter is_token (close_run cur)
            = if (3 <=? length cur)%nat then [rev cur] else []).
  { intros [|x cur] Hx; [reflexivity|].
    cbn [close_run List.filter]. unfold is_token.
    rewrite forallb_rev, Hx, length_rev. cbn [andb].
    now destruct (3 <=? length (x :: cur))%nat. }
  induction Hs as [|c s Hc Hs IH]; intros cur Hcur.
  - cbn [word_runs_from letter_runs_from]. now apply Hclose.
  - cbn [word_runs_from letter_runs_from]. rewrite Hc.
    destruct (in_alpha_class c) eqn:Ha.
    + apply IH. simpl. now rewrite Ha, Hcur.
    + rewrite List.filter_app, Hclose, IH by auto.
      now destruct (3 <=? length cur)%nat.
Qed.

End WithUnicode.

(** The code and the specification's wording agree on a text whose word
    characters, once lowercased, are all letters of [[a-zA-Z]]. *)
Lemma words_of_spec_tokens (db : unicode_db) (text : pystr) :
  Forall (fun c => is_word db c = in_alpha_class c) (Text.lower db text) ->
  words_of db text = spec_tokens db text.
Proof.
  intros H. unfold words_of, spec_tokens.
  rewrite findall_word_runs. now apply letter_runs_word_runs.
Qed.

(** The characters of the runs are characters of the text. *)
Lemma word_runs_from_chars (db : unicode_db) (cur s run : pystr) (c : N) :
  run ∈ word_runs_from db cur s -> c ∈ run -> c ∈ cur \/ c ∈ s.
Proof.
  assert (Hclose : forall cur, run ∈ close_run cur -> c ∈ run -> c ∈ cur).
  { intros [|x cur'] Hrun Hc; [now apply not_elem_of_nil in Hrun|].
    apply list_elem_of_singleton in Hrun as ->.
    apply list_elem_of_In. apply in_rev. now apply list_elem_of_In. }
  revert cur. induction s as [|x s IH]; intros cur Hrun Hc.
  - left. now apply Hclose.
  - cbn [word_runs_from] in Hrun. destruct (is_word db x).
    + destruct (IH _ Hrun Hc) as [Hin|Hin].
      * apply elem_of_cons in Hin as [->|Hin]; [right; now left|now left].
      * right. now right.
    + apply elem_of_app in Hrun as [Hrun|Hrun].
      * left. now apply Hclose.
      * destruct (IH _ Hrun Hc) as [Hin|Hin].
        -- now apply not_elem_of_nil in Hin.
        -- right. now right.
Qed.

(** Every token is three or more letters of [[a-zA-Z]]; in an ASCII
    text the letters are lowercase. *)
Lemma words_of_tokens (db : unicode_db) (text w : pystr) :
  w ∈ words_of db text ->
  is_token w = true
  /\ (forallb Text.is_ascii text = true ->
      forallb Text.is_ascii_lower w = true).
Proof.
  unfold words_of. rewrite findall_word_runs. intros Hw.
  apply list_elem_of_In, filter_In in Hw as [Hw Htok]. apply list_elem_of_In in Hw.
  split; [exact Htok|]. intros Hascii.
  apply forallb_forall. intros c Hc. apply list_elem_of_In in Hc.
  destruct (word_runs_from_chars db [] _ w c Hw Hc) as [Hin|Hin];
    [now apply not_elem_of_nil in Hin|].
  unfold Text.lower in Hin. rewrite Hascii in Hin.
  apply list_elem_of_In, in_map_iff in Hin as (c0 & <- & _).
  unfold is_token in Htok. apply andb_prop in Htok as [Halpha _].
  assert (Hc' : in_alpha_class (Text.ascii_tolower c0) = true).
  { rewrite forallb_forall in Halpha. apply Halpha.
    apply list_elem_of_In.
    destruct (word_runs_from_chars db [] _ w _ Hw Hc) as [Hin|Hin];
      [now apply not_elem_of_nil in Hin|].
    exact Hc. }
  revert Hc'. unfold in_alpha_class, Text.ascii_tolower, Text.is_ascii_lower,
    Text.is_ascii_upper.
  destruct (N.leb_spec 65 c0), (N.leb_spec c0 90); cbn [andb];
    repeat match goal with
      | |- context [N.leb ?a ?b] => destruct (N.leb_spec a b)
      end; cbn; intros; try reflexivity; try discriminate; lia.
Qed.

(** C4 as stated fails: the text of the example yields the single token
    [ccc] (and so does the specification's own rule of three or more
    letters), and in [abc1] the digit does not separate: the code finds
    no token where the rule of the specification finds [abc]. *)
Lemma tokenizer_differs_from_spec :
  (forall db, words_of db (py "a1 bb ccc dd-ee") = [py "ccc"])
  /\ [py "ccc"] <> [py "ccc"; py "dd"; py "ee"]
  /\ (forall db, words_of db (py "abc1") = [])
  /\ (forall db, spec_tokens db (py "abc1") = [py "abc"]).
Proof. repeat split; discriminate. Qed.

(** C4, amended. The tokens are the maximal runs of word characters
    (letters and digits of any script, and the underscore) of the
    lowercased text that are made of three or more letters of
    [[a-zA-Z]] only, in the order of the text; every character that is
    no word character separates and is dropped; the example text yields
    the token [ccc] alone, with count 1. *)
Theorem words_of_whole_words (db : unicode_db) (text : pystr) :
  words_of db text = List.filter is_token (word_runs db (Text.lower db text))
  /\ words_of db (py "a1 bb ccc dd-ee") = [py "ccc"]
  /\ count_words (words_of db (py "a1 bb ccc dd-ee")) = [(py "ccc", 1)].
Proof.
  split; [apply findall_word_runs|]. split; reflexivity.
Qed.

End TokenizerFacts.

(** ** The frequency table and the ranking *)

Module RankingFacts.
Import Keywords.

(** *** [occurrences] and [first_index] *)

Lemma occurrences_snoc (w w' : pystr) (words : list pystr) :
  occurrences w (words ++ [w'])
  = occurrences w words + (if decide (w' = w) then 1 else 0).
Proof.
  unfold occurrences, len. rewrite List.filter_app, length_app. simpl.
  rewrite Nat2Z.inj_add. f_equal.
  destruct (decide (w' = w)) as [->|Hne].
  - now rewrite bool_decide_eq_true_2.
  - now rewrite bool_decide_eq_false_2.
Qed.

Lemma occurrences_nonneg (w : pystr) (words : list pystr) :
  0 <= occurrences w words.
Proof. apply len_nonneg. Qed.

Lemma occurrences_pos (w : pystr) (words : list pystr) :
  w ∈ words -> 1 <= occurrences w words.
Proof.
  intros Hw. unfold occurrences, len.
  assert (Hin : In w (List.filter (fun w' => bool_decide (w' = w)) words)).
  { apply filter_In. split; [now apply list_elem_of_In|].
    now apply bool_decide_eq_true_2. }
  destruct (List.filter _ words); [destruct Hin|]. simpl length. lia.
Qed.

Lemma first_index_app_l (w : pystr) (words words' : list pystr) :
  w ∈ words -> first_index w (words ++ words') = first_index w words.
Proof.
  induction words as [|x words IH]; intros Hw.
  - now apply not_elem_of_nil in Hw.
  - cbn [app first_index]. destruct (decide (x = w)); [reflexivity|].
    f_equal. apply IH. apply elem_of_cons in Hw as [->|Hw]; [congruence|exact Hw].
Qed.

Lemma first_index_lt (w : pystr) (words : list pystr) :
  w ∈ words -> (first_index w words < length words)%nat.
Proof.
  induction words as [|x words IH]; intros Hw.
  - now apply not_elem_of_nil in Hw.
  - cbn [first_index length]. destruct (decide (x = w)); [lia|].
    apply elem_of_cons in Hw as [->|Hw]; [congruence|].
    specialize (IH Hw). lia.
Qed.

Lemma first_index_new (w : pystr) (words : list pystr) :
  w ∉ words -> first_index w (words ++ [w]) = length words.
Proof.
  induction words as [|x words IH]; intros Hw.
  - cbn [app first_index length]. now rewrite decide_True.
  - cbn [app first_index length]. apply not_elem_of_cons in Hw as [Hne Hw].
    rewrite decide_False by congruence. f_equal. now apply IH.
Qed.

(** *** The dict operations *)

Lemma dict_set_keys (freq : list (pystr * Z)) (w : pystr) (v : Z) :
  (dict_set freq w v).*1
  = if decide (w ∈ freq.*1) then freq.*1 else freq.*1 ++ [w].
Proof.
  induction freq as [|[k v'] freq IH].
  - cbn [dict_set fmap list_fmap fst app].
    rewrite decide_False; [reflexivity|apply not_elem_of_nil].
  - cbn [dict_set]. destruct (decide (k = w)) as [->|Hne].
    + rewrite decide_True; [reflexivity|]. rewrite fmap_cons. now left.
    + rewrite !fmap_cons, IH. cbn [fst].
      destruct (decide (w ∈ freq.*1)) as [Hin|Hnin].
      * rewrite decide_True; [reflexivity|now right].
      * rewrite decide_False; [reflexivity|].
        rewrite elem_of_cons. intros [->|?]; congruence.
Qed.

Lemma dict_get_set (freq : list (pystr * Z)) (w k : pystr) (v default : Z) :
  dict_get (dict_set freq w v) k default
  = if decide (k = w) then v else dict_get freq k default.
Proof.
  induction freq as [|[k' v'] freq IH].
  - cbn [dict_set dict_get].
    destruct (decide (w = k)), (decide (k = w)); congruence.
  - cbn [dict_set]. destruct (decide (k' = w)) as [->|Hne]; cbn [dict_get].
    + destruct (decide (w = k)), (decide (k = w)); congruence.
    + rewrite IH. destruct (decide (k' = k)), (decide (k = w)); congruence.
Qed.

Lemma dict_get_elem (freq : list (pystr * Z)) (w : pystr) (c default : Z) :
  NoDup freq.*1 -> (w, c) ∈ freq -> dict_get freq w default = c.
Proof.
  induction freq as [|[k v] freq IH]; intros Hnd Hin.
  - now apply not_elem_of_nil in Hin.
  - rewrite fmap_cons in Hnd. cbn [fst] in Hnd.
    apply NoDup_cons in Hnd as [Hk Hnd]. cbn [dict_get].
    apply elem_of_cons in Hin as [Heq|Hin].
    + injection Heq as -> ->. now rewrite decide_True.
    + destruct (decide (k = w)) as [->|Hne]; [|now apply IH].
      exfalso. apply Hk. apply list_elem_of_fmap. now exists (w, c).
Qed.

(** *** The loop of lines 109-110 *)

Lemma count_words_snoc (words : list pystr) (w : pystr) :
  count_words (words ++ [w])
  = dict_set (count_words words) w (dict_get (count_words words) w 0 + 1).
Proof. unfold count_words. now rewrite fold_left_app. Qed.

(** The table counts every word. *)
Lemma count_words_get (words : list pystr) (w : pystr) :
  dict_get (count_words words) w 0 = occurrences w words.
Proof.
  induction words as [|w' words IH] using rev_ind; [reflexivity|].
  rewrite count_words_snoc, dict_get_set, occurrences_snoc.
  destruct (decide (w = w')) as [->|Hne].
  - rewrite decide_True by reflexivity. now rewrite IH.
  - rewrite decide_False by congruence. rewrite IH. lia.
Qed.

(** Its keys are the words. *)
Lemma count_words_keys (words : list pystr) (w : pystr) :
  w ∈ (count_words words).*1 <-> w ∈ words.
Proof.
  induction words as [|w' words IH] using rev_ind.
  - simpl. split; intros H; now apply not_elem_of_nil in H.
  - rewrite count_words_snoc, dict_set_keys.
    destruct (decide (w' ∈ (count_words words).*1)) as [Hin|Hnin].
    + rewrite elem_of_app, list_elem_of_singleton, IH.
      split; [tauto|]. intros [?| ->]; [assumption|]. now apply IH.
    + rewrite !elem_of_app, !list_elem_of_singleton, IH. tauto.
Qed.

Lemma count_words_NoDup (words : list pystr) : NoDup (count_words words).*1.
Proof.
  induction words as [|w' words IH] using rev_ind; [constructor|].
  rewrite count_words_snoc, dict_set_keys.
  destruct (decide (w' ∈ (count_words words).*1)) as [Hin|Hnin]; [exact IH|].
  apply NoDup_app. split; [exact IH|]. split; [|apply NoDup_singleton].
  intros x Hx Hx'. apply list_elem_of_singleton in Hx'. congruence.
Qed.

(** Its keys are in the order of their first occurrence. *)
Lemma count_words_order (words : list pystr) :
  StronglySorted
    (fun a b => (first_index a words < first_index b words)%nat)
    (count_words words).*1.
Proof.
  induction words as [|w' words IH] using rev_ind; [constructor|].
  assert (Hold : StronglySorted
            (fun a b => (first_index a (words ++ [w'])
                         < first_index b (words ++ [w']))%nat)
            (count_words words).*1).
  { assert (Hsub : forall a, a ∈ (count_words words).*1 -> a ∈ words)
      by (intros a; apply count_words_keys).
    revert IH Hsub. generalize (count_words words).*1 as keys.
    induction 1 as [|a keys Hss IHk Hfa]; intros Hsub; constructor.
    - apply IHk. intros b Hb. apply Hsub. now right.
    - rewrite Forall_forall in *. intros b Hb.
      rewrite !first_index_app_l; [now apply Hfa| |].
      + apply Hsub. now right.
      + apply Hsub. now left. }
  rewrite count_words_snoc, dict_set_keys.
  destruct (decide (w' ∈ (count_words words).*1)) as [Hin|Hnin]; [exact Hold|].
  apply StronglySorted_app_2; [|exact Hold|repeat constructor].
  intros a b Ha Hb. apply list_elem_of_singleton in Hb as ->.
  apply (proj1 (count_words_keys words a)) in Ha.
  rewrite first_index_app_l by exact Ha.
  rewrite first_index_new
    by (intros Hw; apply Hnin; now apply (proj2 (count_words_keys words w'))).
  now apply first_index_lt.
Qed.

(** Every pair of the table is a word with the number of its
    occurrences. *)
Lemma count_words_elem (words : list pystr) (w : pystr) (c : Z) :
  (w, c) ∈ count_words words -> w ∈ words /\ c = occurrences w words.
Proof.
  intros Hin. split.
  - apply count_words_keys. apply list_elem_of_fmap. now exists (w, c).
  - rewrite <- count_words_get. symmetry.
    apply dict_get_elem; [apply count_words_NoDup|exact Hin].
Qed.

Lemma count_words_pairs_order (words : list pystr) :
  StronglySorted
    (fun x y => (first_index x.1 words < first_index y.1 words)%nat)
    (count_words words).
Proof.
  pose proof (count_words_order words) as H.
  revert H. generalize (count_words words) as freq.
  induction freq as [|x freq IH]; intros H; [constructor|].
  rewrite fmap_cons in H. apply StronglySorted_cons in H as [Hfa Hss].
  constructor; [now apply IH|].
  apply Forall_forall. intros y Hy.
  apply (proj1 (Forall_forall _ _) Hfa).
  apply list_elem_of_fmap. now exists y.
Qed.

(** *** [sorted] *)

Section Sorting.
Context {A : Type} (key : A -> Z).

Lemma insert_by_perm (x : A) (l : list A) : insert_by key x l ≡ₚ x :: l.
Proof.
  induction l as [|y l IH]; [reflexivity|].
  cbn [insert_by]. destruct (key x <=? key y); [reflexivity|].
  rewrite IH. apply Permutation_swap.
Qed.

Lemma sort_by_perm (l : list A) : sort_by key l ≡ₚ l.
Proof.
  induction l as [|x l IH]; [reflexivity|].
  cbn [sort_by]. now rewrite insert_by_perm, IH.
Qed.

Lemma sorted_perm (l : list A) (reverse : bool) : sorted l key reverse ≡ₚ l.
Proof.
  unfold sorted. destruct reverse; [|apply sort_by_perm].
  rewrite <- Permutation_rev, sort_by_perm. symmetry. apply Permutation_rev.
Qed.

Lemma insert_by_sorted (before : A -> A -> Prop) (x : A) (l : list A) :
  Forall (before x) l -> StronglySorted (key_then key before) l ->
  StronglySorted (key_then key before) (insert_by key x l).
Proof.
  intros Hx Hl. induction Hl as [|y l Hl IH Hy]; cbn [insert_by].
  - repeat constructor.
  - apply Forall_cons in Hx as [Hxy Hx].
    destruct (Z.leb_spec (key x) (key y)) as [Hle|Hgt].
    + constructor; [now constructor|].
      apply Forall_cons. split.
      * unfold key_then. destruct (Z.eq_dec (key x) (key y)); [right|left]; auto; lia.
      * apply Forall_forall. intros z Hz.
        pose proof (proj1 (Forall_forall _ _) Hy z Hz) as Hyz.
        pose proof (proj1 (Forall_forall _ _) Hx z Hz) as Hxz.
        unfold key_then in *.
        destruct (Z.eq_dec (key x) (key z)); [right|left]; auto; lia.
    + constructor; [now apply IH|].
      apply Forall_forall. intros z Hz.
      rewrite insert_by_perm in Hz. apply elem_of_cons in Hz as [->|Hz].
      * left. lia.
      * exact (proj1 (Forall_forall _ _) Hy z Hz).
Qed.

(** The sort is stable. *)
Lemma sort_by_stable (before : A -> A -> Prop) (l : list A) :
  StronglySorted before l -> StronglySorted (key_then key before) (sort_by key l).
Proof.
  induction 1 as [|x l Hl IH Hx]; cbn [sort_by]; [constructor|].
  apply insert_by_sorted; [|exact IH].
  apply Forall_forall. intros y Hy. rewrite sort_by_perm in Hy.
  exact (proj1 (Forall_forall _ _) Hx y Hy).
Qed.

Lemma StronglySorted_rev (R : A -> A -> Prop) (l : list A) :
  StronglySorted R l -> StronglySorted (flip R) (rev l).
Proof.
  induction 1 as [|x l Hl IH Hx]; [constructor|].
  cbn [rev]. apply StronglySorted_app_2; [|exact IH|repeat constructor].
  intros a b Ha Hb. apply list_elem_of_singleton in Hb as ->.
  unfold flip. apply (proj1 (Forall_forall _ _) Hx).
  apply list_elem_of_In. apply in_rev. now apply list_elem_of_In.
Qed.

(** With [reverse], the result is by descending key, and equal keys
    keep the order of the input. *)
Lemma sorted_reverse_stable (before : A -> A -> Prop) (l : list A) :
  StronglySorted before l ->
  StronglySorted
    (fun x y => key y < key x \/ (key x = key y /\ before x y))
    (sorted l key true).
Proof.
  intros Hl. unfold sorted.
  apply StronglySorted_rev in Hl. apply sort_by_stable in Hl.
  apply StronglySorted_rev in Hl.
  revert Hl. generalize (rev (sort_by key (rev l))) as s.
  induction 1 as [|x s Hs IH Hx]; constructor; [exact IH|].
  apply Forall_forall. intros y Hy.
  pose proof (proj1 (Forall_forall _ _) Hx y Hy) as H.
  unfold flip, key_then in H. destruct H as [H|[H1 H2]]; [now left|right; auto].
Qed.

Lemma StronglySorted_lookup (R : A -> A -> Prop) (l : list A)
    (i j : nat) (x y : A) :
  StronglySorted R l -> (i < j)%nat -> l !! i = Some x -> l !! j = Some y ->
  R x y.
Proof.
  intros Hl. revert i j. induction Hl as [|z l Hl IH Hz]; intros i j Hij Hi Hj.
  - discriminate.
  - destruct j as [|j]; [lia|]. cbn in Hj. destruct i as [|i].
    + cbn in Hi. injection Hi as ->.
      apply (proj1 (Forall_forall _ _) Hz). eapply list_elem_of_lookup_2, Hj.
    + cbn in Hi. apply (IH i j); [lia|assumption..].
Qed.

Lemma StronglySorted_take (R : A -> A -> Prop) (l : list A) (n : nat) :
  StronglySorted R l -> StronglySorted R (take n l).
Proof.
  intros Hl. rewrite <- (take_drop n l) in Hl.
  now apply StronglySorted_app_1_l in Hl.
Qed.

End Sorting.

Lemma slice_to_take {A : Type} (l : list A) (n : Z) :
  0 <= n -> slice_to l n = take (Z.to_nat n) l.
Proof.
  intros Hn. unfold slice_to. destruct (Z.leb_spec 0 n); [reflexivity|lia].
Qed.

(** The whole ranking, before the slice. *)
Lemma ranking_sorted (words : list pystr) :
  StronglySorted
    (fun x y : pystr * Z =>
       y.2 < x.2
       \/ (x.2 = y.2 /\ (first_index x.1 words < first_index y.1 words)%nat))
    (sorted (count_words words) snd true).
Proof.
  apply (sorted_reverse_stable (A := pystr * Z) snd
    (fun x y => (first_index x.1 words < first_index y.1 words)%nat)).
  apply count_words_pairs_order.
Qed.

Lemma len_take_le {A : Type} (l : list A) (n : Z) :
  0 <= n -> len (take (Z.to_nat n) l) <= n.
Proof. intros Hn. unfold len. rewrite length_take. lia. Qed.

(** C5. For every text and every bound [top_n >= 0], [get_top_keywords]
    returns at most [top_n] pairs; they are ordered by count, largest
    first, and among equal counts by the first occurrence of the term
    in the text; each pair is a word of the text with the number of its
    occurrences; a word that is left out occurs no more often than any
    term returned; and the text of the example with bound 2 gives
    [dog] 3, [cat] 2. *)
Theorem get_top_keywords_ranked (db : unicode_db) (text : pystr) (top_n : Z) :
  0 <= top_n ->
  len (get_top_keywords db text top_n) <= top_n
  /\ ranked (words_of db text) (get_top_keywords db text top_n)
  /\ (forall w c, (w, c) ∈ get_top_keywords db text top_n ->
        w ∈ words_of db text /\ c = occurrences w (words_of db text))
  /\ (forall w w' c', w ∈ words_of db text ->
        w ∉ (get_top_keywords db text top_n).*1 ->
        (w', c') ∈ get_top_keywords db text top_n ->
        occurrences w (words_of db text) <= c')
  /\ get_top_keywords db (py "cat cat dog dog dog bird") 2
     = [(py "dog", 3); (py "cat", 2)].
Proof.
  intros Hn. unfold get_top_keywords. rewrite slice_to_take by exact Hn.
  set (words := words_of db text).
  set (all := sorted (count_words words) snd true).
  pose proof (ranking_sorted words) as Hall. fold all in Hall.
  assert (Helem : forall x, x ∈ all <-> x ∈ count_words words).
  { intros x. unfold all. now rewrite sorted_perm. }
  split; [now apply len_take_le|]. split; [|split; [|split]].
  - intros i j w1 w2 c1 c2 Hij Hi Hj.
    apply (StronglySorted_take _ _ (Z.to_nat top_n)) in Hall.
    pose proof (StronglySorted_lookup _ _ i j _ _ Hall Hij Hi Hj) as H.
    cbn [fst snd] in H. destruct H as [H|[H1 H2]]; split; try lia; intros; lia.
  - intros w c Hin. apply count_words_elem. apply Helem.
    apply elem_of_take in Hin as (i & Hi & _). eapply list_elem_of_lookup_2, Hi.
  - intros w w' c' Hw Hout Hin.
    assert (Hwall : (w, occurrences w words) ∈ all).
    { apply Helem. apply (proj2 (count_words_keys words w)) in Hw.
      apply list_elem_of_fmap in Hw as ([w0 c0] & -> & Hw0).
      cbn [fst]. now destruct (count_words_elem _ _ _ Hw0) as [_ <-]. }
    apply list_elem_of_lookup in Hwall as (k & Hk).
    apply elem_of_take in Hin as (i & Hi & Hlt).
    destruct (Nat.lt_ge_cases k (Z.to_nat top_n)) as [Hk_in|Hk_out].
    + exfalso. apply Hout. apply list_elem_of_fmap.
      exists (w, occurrences w words). split; [reflexivity|].
      apply elem_of_take. now exists k.
    + assert (Hik : (i < k)%nat) by lia.
      pose proof (StronglySorted_lookup _ _ i k _ _ Hall Hik Hi Hk) as H.
      cbn [fst snd] in H. lia.
  - reflexivity.
Qed.

Lemma get_top_keywords_ranked_witness :
  0 <= 2
  /\ len (get_top_keywords ascii_only (py "cat cat dog dog dog bird") 2) <= 2
  /\ ranked (words_of ascii_only (py "cat cat dog dog dog bird"))
       (get_top_keywords ascii_only (py "cat cat dog dog dog bird") 2).
Proof.
  assert (H : 0 <= 2) by (vm_compute; discriminate).
  split; [exact H|].
  pose proof (get_top_keywords_ranked ascii_only
                (py "cat cat dog dog dog bird") 2 H) as (Hlen & Hranked & _).
  split; [exact Hlen|exact Hranked].
Defined.

End RankingFacts.

(** ** The fetcher, the advisory generator and the application *)

Module AppFacts.

(** The fetcher, case by case on the outcome of the request. *)
Lemma fetch_html_cases (w : world) (url : pystr) (tr : list event) :
  fetch_html w url tr
  = match requests_get w (requested_url url) tr with
    | Ok r =>
        if status_code r =? 200 then (Ok (Some (text r)), tr)
        else (Ok None, tr ++ [could_not_retrieve])
    | Raise e => (Ok None, tr ++ [error_fetching e])
    end.
Proof.
  unfold fetch_html, try_except, bind, call, emit, ret.
  destruct (requests_get w (requested_url url) tr) as [r|e]; [|reflexivity].
  now destruct (status_code r =? 200).
Qed.

(** C7 as stated fails: a response with status 201, a success status, is
    answered with the warning and no page. *)
Lemma fetch_html_drops_201 :
  requests_get Scenario.created (requested_url (py "example.com")) []
  = Ok {| status_code := 201; text := Scenario.page_html |}
  /\ fetch_html Scenario.created (py "example.com") []
     = (Ok None, [could_not_retrieve]).
Proof. split; reflexivity. Qed.

(** C7, amended. The fetcher never raises: it returns the body of the
    response when the status code is 200, and nothing, after a warning,
    for every other status code, and nothing, after an error message,
    when the request raises. *)
Theorem fetch_html_outcome (w : world) (url : pystr) (tr : list event) :
  (exists html tr', fetch_html w url tr = (Ok html, tr'))
  /\ (forall r, requests_get w (requested_url url) tr = Ok r ->
        status_code r = 200 ->
        fetch_html w url tr = (Ok (Some (text r)), tr))
  /\ (forall r, requests_get w (requested_url url) tr = Ok r ->
        status_code r <> 200 ->
        fetch_html w url tr = (Ok None, tr ++ [could_not_retrieve]))
  /\ (forall e, requests_get w (requested_url url) tr = Raise e ->
        fetch_html w url tr = (Ok None, tr ++ [error_fetching e])).
Proof.
  rewrite fetch_html_cases.
  destruct (requests_get w (requested_url url) tr) as [r|e] eqn:E.
  - destruct (Z.eqb_spec (status_code r) 200) as [H200|Hother].
    + split; [eauto|]. split; [|split].
      * intros r' [= <-] _. reflexivity.
      * intros r' [= <-] Hne. congruence.
      * intros e [=].
    + split; [eauto|]. split; [|split].
      * intros r' [= <-] H200. congruence.
      * intros r' [= <-] _. reflexivity.
      * intros e [=].
  - split; [eauto|]. split; [|split].
    + intros r [=].
    + intros r [=].
    + intros e' [= <-]. reflexivity.
Qed.

(** The fetcher asks for the URL with the scheme [https://] put in front
    unless the URL starts with [http]. *)
Lemma requested_url_scheme :
  requested_url (py "example.com") = py "https://example.com"
  /\ requested_url (py "http://example.com") = py "http://example.com".
Proof. split; reflexivity. Qed.

(** C8. The advisory generator never raises: when the call of the
    service raises, whatever the error, or returns no choice, it returns
    the static advice after a warning; otherwise it returns the text of
    the first choice, stripped. *)
Theorem call_seo_genie_outcome (w : world) (page_title meta_desc : pystr)
    (tr : list event) :
  (exists advice tr', call_seo_genie w page_title meta_desc tr = (Ok advice, tr'))
  /\ (forall e,
        completion_create w (genie_prompt page_title meta_desc) tr = Raise e ->
        call_seo_genie w page_title meta_desc tr
        = (Ok static_advice, tr ++ [static_advice_warning]))
  /\ (completion_create w (genie_prompt page_title meta_desc) tr = Ok [] ->
        call_seo_genie w page_title meta_desc tr
        = (Ok static_advice, tr ++ [static_advice_warning]))
  /\ (forall generated others,
        completion_create w (genie_prompt page_title meta_desc) tr
        = Ok (generated :: others) ->
        call_seo_genie w page_title meta_desc tr
        = (Ok (Text.strip generated), tr))
  /\ static_advice
     = py "1. Ensure your title is eye-catching and includes your main keyword."
       ++ newline
       ++ py "2. Spice up your meta description with a strong call-to-action."
       ++ newline
       ++ py "3. Add more engaging headings to structure your content effectively.".
Proof.
  unfold call_seo_genie, try_except, bind, call, lift, emit, ret.
  destruct (completion_create w (genie_prompt page_title meta_desc) tr)
    as [[|generated others]|e] eqn:E; cbn [first_choice].
  - split; [eauto|]. repeat split; intros; congruence.
  - split; [eauto|]. repeat split; intros; congruence.
  - split; [eauto|]. repeat split; intros; congruence.
Qed.

(** Stripping removes the white space at both ends and nothing else. *)
Lemma strip_example :
  Text.strip (newline ++ py "  Polish your title!  " ++ newline)
  = py "Polish your title!".
Proof. reflexivity. Qed.

(** The comparison with both scores bound: one message, chosen by the
    sign of the difference. *)
Lemma comparison_summary_bound (score1 score2 : Z) (tr : list event) :
  comparison_summary (Some score1) (Some score2) tr
  = (Ok tt,
     tr ++ [comparison_title;
            if decide (score2 < score1) then site_leads (score1 - score2)
            else if decide (score1 < score2) then competitor_leads (score1 - score2)
            else tie]).
Proof.
  unfold comparison_summary, bind, emit, read_local, ret.
  destruct (Z.ltb_spec 0 (score1 - score2)).
  - rewrite decide_True by lia. now rewrite <- app_assoc.
  - rewrite decide_False by lia. destruct (Z.ltb_spec (score1 - score2) 0).
    + rewrite decide_True by lia. now rewrite <- app_assoc.
    + rewrite decide_False by lia. now rewrite <- app_assoc.
Qed.

Lemma comparison_summary_examples :
  snd (comparison_summary (Some 40) (Some 25) [])
  = [comparison_title;
     Show Success [Lit (py "Your site leads by "); FInt 15; Lit (py " points!")]]
  /\ snd (comparison_summary (Some 25) (Some 40) [])
     = [comparison_title;
        Show Warning [Lit (py "Competitor leads by "); FInt 15; Lit (py " points!")]]
  /\ snd (comparison_summary (Some 30) (Some 30) []) = [comparison_title; tie].
Proof. repeat split. Qed.

(** The comparison with a score that was never bound: the title is
    shown and the read of the variable raises. *)
Lemma comparison_summary_unbound (score2 : option Z) (tr : list event) :
  comparison_summary None score2 tr
  = (Raise (UnboundLocalError (py "score1")), tr ++ [comparison_title]).
Proof. reflexivity. Qed.

Lemma comparison_summary_unbound_2 (score1 : Z) (tr : list event) :
  comparison_summary (Some score1) None tr
  = (Raise (UnboundLocalError (py "score2")), tr ++ [comparison_title]).
Proof. reflexivity. Qed.

(** The analysis of a site whose page could not be fetched leaves the
    score unbound. *)
Lemma analyze_site_not_fetched (w : world) (heading advice : list fragment)
    (url : pystr) (tr : list event) (r : response) :
  requests_get w (requested_url url) (tr ++ [Show Subheader heading]) = Ok r ->
  status_code r <> 200 ->
  analyze_site w heading advice url tr
  = (Ok None, tr ++ [Show Subheader heading] ++ [could_not_retrieve]).
Proof.
  intros Hget Hstatus. unfold analyze_site, bind at 1, emit at 1.
  unfold bind at 1.
  rewrite fetch_html_cases, Hget.
  destruct (Z.eqb_spec (status_code r) 200) as [H200|_]; [congruence|].
  now rewrite <- app_assoc.
Qed.

(** With both URLs given and the first page not fetched, whatever the
    world, the press of the button ends in the exception of the unbound
    [score1] as soon as the analysis of the competitor returns. *)
Lemma analyze_without_first_page (w : world) (url1 url2 : pystr)
    (tr tr' : list event) (r : response) (score2 : option Z) :
  Text.truthy url1 = true -> Text.truthy url2 = true ->
  requests_get w (requested_url url1) (tr ++ [Show Subheader your_site_heading])
  = Ok r ->
  status_code r <> 200 ->
  analyze_site w competitor_heading competitor_advice_heading url2
    (tr ++ [Show Subheader your_site_heading] ++ [could_not_retrieve])
  = (Ok score2, tr') ->
  analyze w url1 url2 tr
  = (Raise (UnboundLocalError (py "score1")), tr' ++ [comparison_title]).
Proof.
  intros Hurl1 Hurl2 Hget Hstatus Hsite2. unfold analyze.
  rewrite Hurl1, Hurl2. cbn [andb]. unfold bind at 1.
  rewrite (analyze_site_not_fetched w _ _ url1 tr r Hget Hstatus).
  unfold bind at 1. rewrite Hsite2. apply comparison_summary_unbound.
Qed.

(** The fetcher on a request that times out, and on a status 404. *)
Lemma fetch_html_failures :
  fetch_html Scenario.timed_out (py "example.com") []
  = (Ok None, [error_fetching (RequestException (py "Read timed out."))])
  /\ fetch_html Scenario.first_site_missing (py "example.com") []
     = (Ok None, [could_not_retrieve]).
Proof. split; reflexivity. Qed.

(** C6, on the code: with both URLs given and the page of the first
    site answered with status 404, the summary is entered all the same;
    its title is shown and [main] ends with the exception of the unbound
    [score1], without any of the three messages. *)
Theorem main_summary_without_score :
  Text.truthy (text_input Scenario.first_site_missing (py "Enter your Website URL")
                 (py "example.com")) = true
  /\ Text.truthy (text_input Scenario.first_site_missing
                    (py "Enter Competitor Website URL (optional)")
                    (py "competitor.com")) = true
  /\ fst (fetch_html Scenario.first_site_missing (py "example.com") []) = Ok None
  /\ fst (main Scenario.first_site_missing [])
     = Raise (UnboundLocalError (py "score1"))
  /\ last (snd (main Scenario.first_site_missing [])) = Some comparison_title.
Proof. repeat split. Qed.

(** With both pages fetched the summary is shown and [main] returns. *)
Lemma main_summary_both_sites :
  fst (main Scenario.both_sites_up []) = Ok tt
  /\ comparison_title ∈ snd (main Scenario.both_sites_up [])
  /\ tie ∈ snd (main Scenario.both_sites_up []).
Proof.
  split; [reflexivity|]. split.
  - apply (list_elem_of_lookup_2 _ 30%nat). reflexivity.
  - apply (list_elem_of_lookup_2 _ 31%nat). reflexivity.
Qed.

End AppFacts.

(** ** Strings *)

Module TextFacts.
Import Vocabulary.

Lemma startswith_app (prefix s : pystr) : Text.startswith (prefix ++ s) prefix = true.
Proof.
  induction prefix as [|p prefix IH]; [now destruct s|].
  cbn [app Text.startswith]. now rewrite N.eqb_refl, IH.
Qed.

Lemma lstrip_head (s : pystr) :
  match head (Text.lstrip s) with
  | Some c => Text.isspace c = false
  | None => True
  end.
Proof.
  induction s as [|c s IH]; [exact I|].
  cbn [Text.lstrip]. destruct (Text.isspace c) eqn:E; [exact IH|exact E].
Qed.

Lemma lstrip_fixed (s : pystr) :
  match head s with
  | Some c => Text.isspace c = false
  | None => True
  end ->
  Text.lstrip s = s.
Proof.
  destruct s as [|c s]; [reflexivity|]. cbn [head Text.lstrip].
  now intros ->.
Qed.

(** What [lstrip] leaves is the end of the string. *)
Lemma lstrip_suffix (s : pystr) : exists dropped, s = dropped ++ Text.lstrip s.
Proof.
  induction s as [|c s (dropped & IH)]; [now exists []|].
  cbn [Text.lstrip]. destruct (Text.isspace c).
  - exists (c :: dropped). cbn [app]. now f_equal.
  - now exists [].
Qed.

Lemma last_lstrip (s : pystr) :
  Text.lstrip s <> [] -> last (Text.lstrip s) = last s.
Proof.
  intros Hne. destruct (lstrip_suffix s) as (dropped & Hs).
  rewrite Hs at 2. destruct (Text.lstrip s) as [|c rest] eqn:E; [congruence|].
  rewrite last_app. destruct (last (c :: rest)) eqn:El; [reflexivity|].
  now apply last_None in El.
Qed.

Lemma last_rev (s : pystr) : last (rev s) = head s.
Proof.
  destruct s as [|c s]; [reflexivity|]. cbn [rev head]. apply last_snoc.
Qed.

Lemma head_rev (s : pystr) : head (rev s) = last s.
Proof. rewrite <- (rev_involutive s) at 2. now rewrite last_rev. Qed.

Lemma strip_trimmed (s : pystr) : trimmed (Text.strip s).
Proof.
  unfold trimmed, Text.strip. rewrite head_rev, last_rev. split.
  - destruct (Text.lstrip (rev (Text.lstrip s))) as [|c rest] eqn:E;
      [exact I|].
    rewrite <- E, last_lstrip by congruence.
    rewrite last_rev. apply lstrip_head.
  - apply lstrip_head.
Qed.

Lemma strip_fixed (s : pystr) : trimmed s -> Text.strip s = s.
Proof.
  intros [Hhead Hlast]. unfold Text.strip.
  rewrite (lstrip_fixed s Hhead).
  rewrite (lstrip_fixed (rev s)) by now rewrite head_rev.
  apply rev_involutive.
Qed.

Lemma trimmed_nil : trimmed [].
Proof. split; exact I. Qed.

End TextFacts.

(** ** The fetcher's URL, the extractor and the scorer, further *)

Module PipelineFacts.
Import Vocabulary Scorer ScorerFacts.

(** X1. The URL that the fetcher requests always starts with [http];
    normalising is idempotent; a URL that starts with [http] (be it
    [httpbin.org]) is requested as it is, any other gets [https://] in
    front; and fetching a URL and fetching its normalised form are the
    same computation. *)
Theorem requested_url_normal (url : pystr) :
  Text.startswith (requested_url url) (py "http") = true
  /\ requested_url (requested_url url) = requested_url url
  /\ (Text.startswith url (py "http") = true -> requested_url url = url)
  /\ (Text.startswith url (py "http") = false ->
      requested_url url = py "https://" ++ url)
  /\ (forall w tr, fetch_html w (requested_url url) tr = fetch_html w url tr).
Proof.
  assert (Hstart : Text.startswith (requested_url url) (py "http") = true).
  { unfold requested_url. destruct (Text.startswith url (py "http")) eqn:E;
      cbn [negb]; [exact E|reflexivity]. }
  assert (Hidem : requested_url (requested_url url) = requested_url url).
  { unfold requested_url at 1. now rewrite Hstart. }
  split; [exact Hstart|]. split; [exact Hidem|].
  split; [|split].
  - intros H. unfold requested_url. now rewrite H.
  - intros H. unfold requested_url. now rewrite H.
  - intros w tr. rewrite !AppFacts.fetch_html_cases. now rewrite Hidem.
Qed.

(** *** The extractor *)

Lemma heading_levels_distinct :
  py "h1" <> py "h2" /\ py "h1" <> py "h3" /\ py "h1" <> py "h4"
  /\ py "h2" <> py "h3" /\ py "h2" <> py "h4" /\ py "h3" <> py "h4".
Proof. repeat split; discriminate. Qed.

(** X2. The headings mapping of the extractor has the four keys h1 to
    h4 and no other; each key maps to the stripped texts of the elements
    of that level, in the order of the document. *)
Theorem extract_onpage_data_headers (w : world) (html k : pystr) :
  (extract_onpage_data w html).1.2 !! k
  = if decide (k ∈ heading_levels)
    then Some (List.map tag_get_text_strip (find_all (html_parser w html) k))
    else None.
Proof.
  destruct heading_levels_distinct as (H12 & H13 & H14 & H23 & H24 & H34).
  unfold extract_onpage_data, heading_levels. cbn [fst snd fold_left].
  destruct (decide (k = py "h4")) as [->|N4].
  { rewrite lookup_insert_eq, decide_True; [reflexivity|].
    repeat (first [now left | right]). }
  rewrite lookup_insert_ne by congruence.
  destruct (decide (k = py "h3")) as [->|N3].
  { rewrite lookup_insert_eq, decide_True; [reflexivity|].
    repeat (first [now left | right]). }
  rewrite lookup_insert_ne by congruence.
  destruct (decide (k = py "h2")) as [->|N2].
  { rewrite lookup_insert_eq, decide_True; [reflexivity|].
    repeat (first [now left | right]). }
  rewrite lookup_insert_ne by congruence.
  destruct (decide (k = py "h1")) as [->|N1].
  { rewrite lookup_insert_eq, decide_True; [reflexivity|]. now left. }
  rewrite lookup_insert_ne by congruence. rewrite lookup_empty.
  rewrite decide_False; [reflexivity|].
  rewrite !elem_of_cons. intros [?|[?|[?|[?|H]]]]; try congruence.
  now apply not_elem_of_nil in H.
Qed.

(** X3. The title and the description that the extractor returns have no
    white space at either end; the title is empty when the document has
    no title element, and the description is empty when there is no
    meta element named description, or it has no content attribute, or
    an empty one. *)
Theorem extract_onpage_data_title_description (w : world) (html : pystr) :
  trimmed (extract_onpage_data w html).1.1.1
  /\ trimmed (extract_onpage_data w html).1.1.2
  /\ (find (html_parser w html) (py "title") = None ->
      (extract_onpage_data w html).1.1.1 = [])
  /\ (find_meta (html_parser w html) (py "description") = None ->
      (extract_onpage_data w html).1.1.2 = [])
  /\ (forall t, find_meta (html_parser w html) (py "description") = Some t ->
      tag_get t (py "content") = None \/ tag_get t (py "content") = Some [] ->
      (extract_onpage_data w html).1.1.2 = []).
Proof.
  unfold extract_onpage_data. cbn [fst snd].
  split; [|split; [|split; [|split]]].
  - destruct (find _ _); [apply TextFacts.strip_trimmed|apply TextFacts.trimmed_nil].
  - destruct (find_meta _ _) as [t|]; [|apply TextFacts.trimmed_nil].
    destruct (tag_get t _) as [content|]; [|apply TextFacts.trimmed_nil].
    destruct (Text.truthy content);
      [apply TextFacts.strip_trimmed|apply TextFacts.trimmed_nil].
  - now intros ->.
  - now intros ->.
  - intros t -> [-> | ->]; reflexivity.
Qed.

(** *** The scorer *)

(** Whenever the scorer returns, the score is a multiple of 5 between
    10 and 60. *)
Lemma calculate_seo_score_value (title meta_desc : pystr)
    (headers : gmap pystr (list pystr)) (score : Z) :
  calculate_seo_score title meta_desc headers = Ok score ->
  10 <= score <= 60 /\ score mod 5 = 0.
Proof.
  unfold calculate_seo_score, score_before_cap, getitem.
  destruct (headers !! py "h1") as [h1|]; [|discriminate].
  destruct (headers !! py "h2") as [h2|]; [|discriminate].
  destruct (headers !! py "h3") as [h3|]; [|discriminate].
  cbn [rbind]. intros [= <-].
  rewrite h2_h3_usage_table, h1_presence_table, description_band_table,
    title_band_table.
  unfold table_title, table_description, table_h1, table_h2, table_h3.
  repeat match goal with
    | |- context [decide ?P] => destruct (decide P)
    end; split; (lia || reflexivity).
Qed.

Lemma calculate_seo_score_scorable (title meta_desc : pystr)
    (headers : gmap pystr (list pystr)) :
  scorable headers ->
  exists score, calculate_seo_score title meta_desc headers = Ok score.
Proof.
  intros Hs. destruct (scorable_lookups headers Hs) as (h1 & h2 & h3 & H1 & H2 & H3).
  unfold calculate_seo_score.
  rewrite (score_before_cap_sum _ _ _ _ _ _ H1 H2 H3). cbn [rbind]. eauto.
Qed.

(** The score of what the extractor returns. *)
Lemma extracted_score (w : world) (html : pystr) :
  exists score,
    calculate_seo_score (extract_onpage_data w html).1.1.1
      (extract_onpage_data w html).1.1.2 (extract_onpage_data w html).1.2
    = Ok score
    /\ 10 <= score <= 60.
Proof.
  destruct (calculate_seo_score_scorable (extract_onpage_data w html).1.1.1
              (extract_onpage_data w html).1.1.2 (extract_onpage_data w html).1.2)
    as [score Hscore].
  { apply extract_onpage_data_scorable. }
  exists score. split; [exact Hscore|].
  now destruct (calculate_seo_score_value _ _ _ _ Hscore).
Qed.

(** X4. Extraction and scoring compose: whatever the page, the scorer
    applied to the title, the description and the headings that the
    extractor returns raises nothing and gives a multiple of 5 between
    10 and 60. *)
Theorem score_of_extracted_page (w : world) (html : pystr) :
  exists score,
    calculate_seo_score (extract_onpage_data w html).1.1.1
      (extract_onpage_data w html).1.1.2 (extract_onpage_data w html).1.2
    = Ok score
    /\ 10 <= score <= 60 /\ score mod 5 = 0.
Proof.
  destruct (extracted_score w html) as (score & Hscore & _).
  exists score. split; [exact Hscore|].
  exact (calculate_seo_score_value _ _ _ _ Hscore).
Qed.

(** X5. On a headings mapping that lacks one of the keys h1, h2, h3 the
    scorer raises the [KeyError] of the first key that is missing, in
    that order, whatever the title and the description; it returns a
    score exactly when the three keys are present. *)
Theorem calculate_seo_score_key_errors (title meta_desc : pystr)
    (headers : gmap pystr (list pystr)) :
  match first_missing_key headers with
  | Some k =>
      headers !! k = None
      /\ calculate_seo_score title meta_desc headers = Raise (KeyError k)
  | None =>
      exists score, calculate_seo_score title meta_desc headers = Ok score
  end
  /\ (first_missing_key headers = None <-> scorable headers).
Proof.
  unfold first_missing_key, scorable, calculate_seo_score, score_before_cap,
    getitem.
  destruct (headers !! py "h1") as [h1|] eqn:E1;
    [|split; [now split|]; split; [discriminate|intros ([? [=]] & _)]].
  destruct (headers !! py "h2") as [h2|] eqn:E2;
    [|split; [now split|]; split; [discriminate|intros (_ & [? [=]] & _)]].
  destruct (headers !! py "h3") as [h3|] eqn:E3;
    [|split; [now split|]; split; [discriminate|intros (_ & _ & [? [=]])]].
  cbn [rbind]. split; [eauto|]. split; [eauto 7|reflexivity].
Qed.

(** X6. The score depends on the lengths only: two inputs whose titles,
    whose descriptions and whose h1, h2 and h3 lists have equal lengths
    get the same result, whatever the texts and whatever the mappings
    hold under other keys, h4 included. *)
Theorem calculate_seo_score_lengths_only (title title' meta_desc meta_desc' : pystr)
    (headers headers' : gmap pystr (list pystr)) :
  len title = len title' ->
  len meta_desc = len meta_desc' ->
  (forall k, k ∈ [py "h1"; py "h2"; py "h3"] ->
     len <$> headers !! k = len <$> headers' !! k) ->
  calculate_seo_score title meta_desc headers
  = calculate_seo_score title' meta_desc' headers'.
Proof.
  intros Ht Hd Hh.
  assert (H1 := Hh (py "h1") ltac:(now left)).
  assert (H2 := Hh (py "h2") ltac:(right; now left)).
  assert (H3 := Hh (py "h3") ltac:(right; right; now left)).
  unfold calculate_seo_score, score_before_cap, getitem.
  destruct (headers !! py "h1") as [h1|], (headers' !! py "h1") as [h1'|];
    try discriminate; [|reflexivity].
  destruct (headers !! py "h2") as [h2|], (headers' !! py "h2") as [h2'|];
    try discriminate; [|reflexivity].
  destruct (headers !! py "h3") as [h3|], (headers' !! py "h3") as [h3'|];
    try discriminate; [|reflexivity].
  cbn [rbind]. cbn in H1, H2, H3. injection H1 as H1. injection H2 as H2.
  injection H3 as H3.
  rewrite !h2_h3_usage_table, !h1_presence_table, !description_band_table,
    !title_band_table. now rewrite Ht, Hd, H1, H2, H3.
Qed.

Lemma calculate_seo_score_lengths_only_witness :
  len (py "A title") = len (py "Seven c")
  /\ len (Scenario.text_of_length 140) = len (repeat 121%N 140)
  /\ (forall k, k ∈ [py "h1"; py "h2"; py "h3"] ->
        len <$> Scenario.full_headings !! k = len <$> Worlds.other_headings !! k)
  /\ calculate_seo_score (py "A title") (Scenario.text_of_length 140)
       Scenario.full_headings
     = calculate_seo_score (py "Seven c") (repeat 121%N 140) Worlds.other_headings.
Proof.
  assert (Ht : len (py "A title") = len (py "Seven c")) by reflexivity.
  assert (Hd : len (Scenario.text_of_length 140) = len (repeat 121%N 140))
    by reflexivity.
  assert (Hh : forall k, k ∈ [py "h1"; py "h2"; py "h3"] ->
            len <$> Scenario.full_headings !! k = len <$> Worlds.other_headings !! k).
  { intros k Hk. repeat (apply elem_of_cons in Hk as [->|Hk]; [reflexivity|]).
    now apply not_elem_of_nil in Hk. }
  split; [exact Ht|]. split; [exact Hd|]. split; [exact Hh|].
  exact (calculate_seo_score_lengths_only _ _ _ _ _ _ Ht Hd Hh).
Defined.

(** X7. More headings never lower the score: with the same title and
    description, a mapping whose h1, h2 and h3 lists are at least as
    long gets a score at least as high. *)
Theorem calculate_seo_score_monotone_headings (title meta_desc : pystr)
    (headers headers' : gmap pystr (list pystr)) (h1 h2 h3 h1' h2' h3' : list pystr) :
  headers !! py "h1" = Some h1 -> headers !! py "h2" = Some h2 ->
  headers !! py "h3" = Some h3 ->
  headers' !! py "h1" = Some h1' -> headers' !! py "h2" = Some h2' ->
  headers' !! py "h3" = Some h3' ->
  len h1 <= len h1' -> len h2 <= len h2' -> len h3 <= len h3' ->
  exists score score',
    calculate_seo_score title meta_desc headers = Ok score
    /\ calculate_seo_score title meta_desc headers' = Ok score'
    /\ score <= score'.
Proof.
  intros H1 H2 H3 H1' H2' H3' L1 L2 L3. unfold calculate_seo_score.
  rewrite (score_before_cap_sum _ _ _ _ _ _ H1 H2 H3).
  rewrite (score_before_cap_sum _ _ _ _ _ _ H1' H2' H3'). cbn [rbind].
  eexists _, _. split; [reflexivity|]. split; [reflexivity|].
  unfold score_h1, score_h2_h3.
  rewrite !h2_h3_usage_table, !h1_presence_table.
  unfold table_h1, table_h2, table_h3.
  repeat match goal with
    | |- context [decide ?P] => destruct (decide P)
    end; lia.
Qed.

Lemma calculate_seo_score_monotone_headings_witness :
  (len ([] : list pystr) <= len [py "Welcome"]
   /\ len ([] : list pystr) <= len [py "About"]
   /\ len ([] : list pystr) <= len [py "Team"; py "Contact"])
  /\ exists score score',
       calculate_seo_score (py "A title") [] Scenario.empty_headings = Ok score
       /\ calculate_seo_score (py "A title") [] Scenario.full_headings = Ok score'
       /\ score <= score'.
Proof.
  assert (L1 : len ([] : list pystr) <= len [py "Welcome"])
    by (vm_compute; discriminate).
  assert (L2 : len ([] : list pystr) <= len [py "About"])
    by (vm_compute; discriminate).
  assert (L3 : len ([] : list pystr) <= len [py "Team"; py "Contact"])
    by (vm_compute; discriminate).
  split; [now repeat split|].
  exact (calculate_seo_score_monotone_headings (py "A title") []
           Scenario.empty_headings Scenario.full_headings
           [] [] [] [py "Welcome"] [py "About"] [py "Team"; py "Contact"]
           eq_refl eq_refl eq_refl eq_refl eq_refl eq_refl L1 L2 L3).
Defined.

End PipelineFacts.

(** ** The keyword analyzer, further *)

Module KeywordFacts.
Import Vocabulary Keywords RankingFacts.

Lemma get_top_keywords_slice (db : unicode_db) (text : pystr) (top_n : Z) :
  get_top_keywords db text top_n = slice_to (full_ranking db text) top_n.
Proof. reflexivity. Qed.

Lemma slice_to_negative {A : Type} (l : list A) (n : Z) :
  n < 0 -> slice_to l n = take (length l - Z.to_nat (- n)) l.
Proof.
  intros Hn. unfold slice_to, len.
  destruct (Z.leb_spec 0 n); [lia|]. f_equal. lia.
Qed.

(** Whatever the bound, the slice is a prefix. *)
Lemma slice_to_prefix {A : Type} (l : list A) (n : Z) :
  exists k, slice_to l n = take k l.
Proof. unfold slice_to. destruct (0 <=? n); eauto. Qed.

Lemma full_ranking_perm (db : unicode_db) (text : pystr) :
  full_ranking db text ≡ₚ count_words (words_of db text).
Proof. apply sorted_perm. Qed.

Lemma count_words_length (words : list pystr) :
  (length (count_words words) <= length words)%nat.
Proof.
  rewrite <- (length_fmap fst (count_words words)).
  induction words as [|w words IH] using rev_ind; [reflexivity|].
  rewrite count_words_snoc, dict_set_keys, length_app. cbn [length].
  destruct (decide (w ∈ (count_words words).*1)); [lia|].
  rewrite length_app. cbn [length]. lia.
Qed.

Lemma full_ranking_length (db : unicode_db) (text : pystr) :
  (length (full_ranking db text) <= length (words_of db text))%nat.
Proof.
  rewrite (Permutation_length (full_ranking_perm db text)).
  apply count_words_length.
Qed.

Lemma count_words_nil (words : list pystr) :
  count_words words = [] <-> words = [].
Proof.
  split; [|now intros ->]. intros H.
  destruct words as [|w words]; [reflexivity|]. exfalso.
  assert (Hw : w ∈ (count_words (w :: words)).*1)
    by (apply count_words_keys; now left).
  rewrite H in Hw. now apply not_elem_of_nil in Hw.
Qed.

Lemma full_ranking_nil (db : unicode_db) (text : pystr) :
  full_ranking db text = [] <-> words_of db text = [].
Proof.
  rewrite <- count_words_nil. split; intros H.
  - apply Permutation_nil_r. rewrite <- H. symmetry. apply full_ranking_perm.
  - apply Permutation_nil_r. rewrite <- H. apply full_ranking_perm.
Qed.

(** *** The sum of the counts *)

Lemma total_cons (x : pystr * Z) (l : list (pystr * Z)) :
  total (x :: l) = x.2 + total l.
Proof. reflexivity. Qed.

Lemma total_app (l1 l2 : list (pystr * Z)) : total (l1 ++ l2) = total l1 + total l2.
Proof.
  induction l1 as [|x l1 IH]; [reflexivity|].
  cbn [app]. rewrite !total_cons, IH. lia.
Qed.

Lemma total_perm (l1 l2 : list (pystr * Z)) : l1 ≡ₚ l2 -> total l1 = total l2.
Proof.
  induction 1 as [|x l1 l2 _ IH|x y l|l1 l2 l3 _ IH1 _ IH2].
  - reflexivity.
  - rewrite !total_cons. lia.
  - rewrite !total_cons. lia.
  - lia.
Qed.

Lemma total_dict_set (freq : list (pystr * Z)) (w : pystr) (v : Z) :
  total (dict_set freq w v) = total freq - dict_get freq w 0 + v.
Proof.
  induction freq as [|[k v'] freq IH]; cbn [dict_set dict_get].
  - rewrite total_cons. cbn. lia.
  - destruct (decide (k = w)); rewrite !total_cons; cbn [snd]; lia.
Qed.

Lemma total_count_words (words : list pystr) : total (count_words words) = len words.
Proof.
  induction words as [|w words IH] using rev_ind; [reflexivity|].
  rewrite count_words_snoc, total_dict_set, IH. unfold len.
  rewrite length_app. cbn [length]. lia.
Qed.

Lemma counts_positive (db : unicode_db) (text : pystr) :
  Forall (fun pair => 1 <= pair.2) (full_ranking db text).
Proof.
  apply Forall_forall. intros [w c] Hin. cbn [snd].
  rewrite full_ranking_perm in Hin.
  destruct (count_words_elem _ _ _ Hin) as [Hw ->].
  now apply occurrences_pos.
Qed.

Lemma total_nonneg (l : list (pystr * Z)) :
  Forall (fun pair => 1 <= pair.2) l -> 0 <= total l.
Proof.
  induction 1 as [|x l Hx _ IH]; [reflexivity|].
  rewrite total_cons. lia.
Qed.

(** X8. With a negative bound the slice of line 115 drops entries from
    the end: [get_top_keywords] returns the ranking without its last
    [-top_n] entries, that is, nothing when the ranking has no more than
    [-top_n]; no error is raised. *)
Theorem get_top_keywords_negative (db : unicode_db) (text : pystr) (top_n : Z) :
  top_n < 0 ->
  get_top_keywords db text top_n
  = take (length (full_ranking db text) - Z.to_nat (- top_n)) (full_ranking db text)
  /\ len (get_top_keywords db text top_n)
     = Z.max 0 (len (full_ranking db text) + top_n).
Proof.
  intros Hn. rewrite get_top_keywords_slice, slice_to_negative by exact Hn.
  split; [reflexivity|]. unfold len. rewrite length_take. lia.
Qed.

Lemma get_top_keywords_negative_witness :
  -1 < 0
  /\ get_top_keywords ascii_only (py "cat cat dog dog dog bird") (-1)
     = [(py "dog", 3); (py "cat", 2)].
Proof.
  assert (H : -1 < 0) by reflexivity.
  split; [exact H|].
  exact (proj1 (get_top_keywords_negative ascii_only
                  (py "cat cat dog dog dog bird") (-1) H)).
Defined.

(** X9. The terms returned are pairwise distinct, whatever the bound. *)
Theorem get_top_keywords_distinct (db : unicode_db) (text : pystr) (top_n : Z) :
  NoDup (get_top_keywords db text top_n).*1.
Proof.
  rewrite get_top_keywords_slice.
  destruct (slice_to_prefix (full_ranking db text) top_n) as [k ->].
  rewrite fmap_take. eapply sublist_NoDup; [|apply sublist_take].
  rewrite (full_ranking_perm db text). apply count_words_NoDup.
Qed.

(** X10. The counts of the whole ranking add up to the number of tokens
    of the text; the counts of what is returned never add up to more;
    and a bound that is at least the number of tokens returns the whole
    ranking. *)
Theorem get_top_keywords_total (db : unicode_db) (text : pystr) (top_n : Z) :
  total (full_ranking db text) = len (words_of db text)
  /\ total (get_top_keywords db text top_n) <= len (words_of db text)
  /\ (len (words_of db text) <= top_n ->
      get_top_keywords db text top_n = full_ranking db text).
Proof.
  assert (Htotal : total (full_ranking db text) = len (words_of db text)).
  { rewrite (total_perm _ _ (full_ranking_perm db text)).
    apply total_count_words. }
  split; [exact Htotal|]. split.
  - rewrite get_top_keywords_slice.
    destruct (slice_to_prefix (full_ranking db text) top_n) as [k ->].
    rewrite <- Htotal. rewrite <- (take_drop k (full_ranking db text)) at 2.
    rewrite total_app.
    assert (0 <= total (drop k (full_ranking db text))); [|lia].
    apply total_nonneg. pose proof (counts_positive db text) as Hpos.
    rewrite <- (take_drop k (full_ranking db text)) in Hpos.
    now apply Forall_app in Hpos.
  - intros Hn. rewrite get_top_keywords_slice, slice_to_take
      by (pose proof (len_nonneg (words_of db text)); lia).
    apply take_ge. pose proof (full_ranking_length db text).
    unfold len in Hn. lia.
Qed.

(** X11. Raising the bound only appends: for [0 <= n <= m] the result
    for [n] is the first [n] entries of the result for [m]; and the
    result for [n] has [n] entries, or all the distinct tokens when
    there are fewer. *)
Theorem get_top_keywords_prefix (db : unicode_db) (text : pystr) (n m : Z) :
  0 <= n <= m ->
  get_top_keywords db text n = take (Z.to_nat n) (get_top_keywords db text m)
  /\ len (get_top_keywords db text n) = Z.min n (len (full_ranking db text)).
Proof.
  intros Hnm. rewrite !get_top_keywords_slice, !slice_to_take by lia. split.
  - rewrite take_take. f_equal. lia.
  - unfold len. rewrite length_take. lia.
Qed.

Lemma get_top_keywords_prefix_witness :
  0 <= 1 <= 2
  /\ get_top_keywords ascii_only (py "cat cat dog dog dog bird") 1
     = take 1 (get_top_keywords ascii_only (py "cat cat dog dog dog bird") 2).
Proof.
  assert (H : 0 <= 1 <= 2) by (split; vm_compute; discriminate).
  split; [exact H|].
  exact (proj1 (get_top_keywords_prefix ascii_only
                  (py "cat cat dog dog dog bird") 1 2 H)).
Defined.

(** X12. With a bound [top_n >= 0], nothing is returned exactly when the
    bound is 0 or the text has no token. *)
Theorem get_top_keywords_empty (db : unicode_db) (text : pystr) (top_n : Z) :
  0 <= top_n ->
  get_top_keywords db text top_n = [] <-> top_n = 0 \/ words_of db text = [].
Proof.
  intros Hn. rewrite get_top_keywords_slice, slice_to_take by exact Hn.
  rewrite <- full_ranking_nil. split.
  - intros H. apply take_nil_inv in H as [H|H]; [left; lia|now right].
  - intros [-> | ->]; [apply take_0|apply take_nil].
Qed.

Lemma get_top_keywords_empty_witness :
  0 <= 10
  /\ (get_top_keywords ascii_only (py "a1 b2, 42 -- x_y") 10 = []
      <-> 10 = 0 \/ words_of ascii_only (py "a1 b2, 42 -- x_y") = []).
Proof.
  assert (H : 0 <= 10) by (vm_compute; discriminate).
  split; [exact H|].
  exact (get_top_keywords_empty ascii_only (py "a1 b2, 42 -- x_y") 10 H).
Defined.

(** X13. Every token is made of three or more letters of [[a-zA-Z]];
    in a text of ASCII characters the letters are all lowercase, so that
    words that differ in case only are counted together. *)
Theorem tokens_are_letters (db : unicode_db) (text : pystr) :
  Forall (fun w => (3 <= length w)%nat
                   /\ Forall (fun c => in_alpha_class c = true) w)
    (words_of db text)
  /\ (forallb Text.is_ascii text = true ->
      Forall (fun w => Forall (fun c => Text.is_ascii_lower c = true) w)
        (words_of db text)).
Proof.
  split.
  - apply Forall_forall. intros w Hw.
    destruct (TokenizerFacts.words_of_tokens db text w Hw) as [Htok _].
    unfold is_token in Htok. apply andb_prop in Htok as [Ha Hl].
    split; [now apply Nat.leb_le|].
    apply Forall_forall. intros c Hc. rewrite forallb_forall in Ha.
    apply Ha. now apply list_elem_of_In.
  - intros Hascii. apply Forall_forall. intros w Hw.
    destruct (TokenizerFacts.words_of_tokens db text w Hw) as [_ Hlow].
    specialize (Hlow Hascii). apply Forall_forall. intros c Hc.
    rewrite forallb_forall in Hlow. apply Hlow. now apply list_elem_of_In.
Qed.

(** X14. On a text whose word characters, once lowercased, are all
    letters of [[a-zA-Z]] (no digit, no underscore, no letter of another
    script), the tokens are the runs of three or more letters. *)
Theorem tokens_of_letter_text (db : unicode_db) (text : pystr) :
  Forall (fun c => is_word db c = in_alpha_class c) (Text.lower db text) ->
  words_of db text = spec_tokens db text.
Proof. apply TokenizerFacts.words_of_spec_tokens. Qed.

Lemma tokens_of_letter_text_witness :
  Forall (fun c => is_word ascii_only c = in_alpha_class c)
    (Text.lower ascii_only (py "The cat -- the CAT, and a dog!"))
  /\ words_of ascii_only (py "The cat -- the CAT, and a dog!")
     = [py "the"; py "cat"; py "the"; py "cat"; py "and"; py "dog"].
Proof.
  assert (H : Forall (fun c => is_word ascii_only c = in_alpha_class c)
                (Text.lower ascii_only (py "The cat -- the CAT, and a dog!"))).
  { apply Forall_forall. intros c Hc.
    repeat (apply elem_of_cons in Hc as [->|Hc]; [reflexivity|]).
    now apply not_elem_of_nil in Hc. }
  split; [exact H|].
  exact (tokens_of_letter_text ascii_only (py "The cat -- the CAT, and a dog!") H).
Defined.

End KeywordFacts.

(** ** The application, further *)

Module AppFurther.
Import Vocabulary AppFacts.

(** *** Computations that keep the page accepted *)

Lemma keeps_ret {A : Type} (a : A) : keeps_page_ok (ret a).
Proof. intros tr H. exact H. Qed.

Lemma keeps_emit (e : event) : event_ok e -> keeps_page_ok (emit e).
Proof.
  intros He tr H. unfold emit. cbn [snd]. apply Forall_app. split; [exact H|].
  now repeat constructor.
Qed.

Lemma keeps_lift {A : Type} (r : result A) : keeps_page_ok (lift r).
Proof. intros tr H. exact H. Qed.

Lemma keeps_call {A : Type} (f : list event -> result A) : keeps_page_ok (call f).
Proof. intros tr H. exact H. Qed.

Lemma keeps_bind {A B : Type} (m : io A) (k : A -> io B) :
  keeps_page_ok m ->
  (forall a tr, (m tr).1 = Ok a -> keeps_page_ok (k a)) ->
  keeps_page_ok (bind m k).
Proof.
  intros Hm Hk tr H. unfold bind. specialize (Hm tr H).
  specialize (Hk) with (tr := tr).
  destruct (m tr) as [[a|e] tr']; cbn [fst snd] in *; [|exact Hm].
  now apply (Hk a eq_refl).
Qed.

Lemma keeps_try_except {A : Type} (body : io A) (handler : exn -> io A) :
  keeps_page_ok body -> (forall e, keeps_page_ok (handler e)) ->
  keeps_page_ok (try_except body handler).
Proof.
  intros Hb Hh tr H. unfold try_except. specialize (Hb tr H).
  destruct (body tr) as [[a|e] tr']; cbn [snd] in *; [exact Hb|].
  now apply Hh.
Qed.

(** One step through a computation built from the operations above. *)
Ltac keeps :=
  repeat first
    [ apply keeps_ret
    | apply keeps_lift
    | apply keeps_call
    | apply keeps_emit; exact I
    | apply keeps_try_except; [|intros ?]
    | apply keeps_bind; [|intros ? ? ?] ].

Lemma fetch_html_keeps (w : world) (url : pystr) : keeps_page_ok (fetch_html w url).
Proof.
  unfold fetch_html. keeps.
  destruct (status_code _ =? 200); keeps.
Qed.

Lemma call_seo_genie_keeps (w : world) (page_title meta_desc : pystr) :
  keeps_page_ok (call_seo_genie w page_title meta_desc).
Proof. unfold call_seo_genie. keeps. Qed.

Lemma generate_wordcloud_keeps (w : world) (text : pystr) :
  keeps_page_ok (generate_wordcloud w text).
Proof. unfold generate_wordcloud. keeps. Qed.

Lemma analyze_site_keeps (w : world) (heading advice : list fragment) (url : pystr) :
  keeps_page_ok (analyze_site w heading advice url).
Proof.
  unfold analyze_site. apply keeps_bind; [keeps|intros _ _ _].
  apply keeps_bind; [apply fetch_html_keeps|intros html _ _].
  destruct html as [[|c html]|]; [keeps| |keeps]. cbv beta iota.
  destruct (extract_onpage_data w (c :: html)) as [[[title desc] headers] texts].
  apply keeps_bind; [keeps|intros score tr Hscore].
  unfold lift in Hscore. cbn [fst] in Hscore.
  destruct (PipelineFacts.calculate_seo_score_value _ _ _ _ Hscore) as [Hrange _].
  apply keeps_bind; [keeps|intros _ _ _].
  apply keeps_bind; [keeps|intros _ _ _].
  apply keeps_bind; [keeps|intros h1 _ _].
  apply keeps_bind; [keeps|intros _ _ _].
  apply keeps_bind; [keeps|intros _ _ _].
  apply keeps_bind; [apply keeps_emit; cbn; lia|intros _ _ _].
  apply keeps_bind; [keeps|intros _ _ _].
  apply keeps_bind; [apply generate_wordcloud_keeps|intros _ _ _].
  apply keeps_bind; [keeps|intros _ _ _].
  apply keeps_bind; [keeps|intros _ _ _].
  apply keeps_bind; [apply call_seo_genie_keeps|intros suggestions _ _].
  keeps.
Qed.

Lemma comparison_summary_keeps (score1 score2 : option Z) :
  keeps_page_ok (comparison_summary score1 score2).
Proof.
  unfold comparison_summary, read_local.
  apply keeps_bind; [keeps|intros _ _ _].
  apply keeps_bind; [destruct score1; keeps|intros s1 _ _].
  apply keeps_bind; [destruct score2; keeps|intros s2 _ _].
  destruct (0 <? s1 - s2); [keeps|]. destruct (s1 - s2 <? 0); keeps.
Qed.

Lemma analyze_keeps (w : world) (url1 url2 : pystr) :
  keeps_page_ok (analyze w url1 url2).
Proof.
  unfold analyze.
  apply keeps_bind;
    [destruct (Text.truthy url1); [apply analyze_site_keeps|keeps]
    |intros score1 _ _].
  apply keeps_bind;
    [destruct (Text.truthy url2); [apply analyze_site_keeps|keeps]
    |intros score2 _ _].
  destruct (Text.truthy url1 && Text.truthy url2);
    [apply comparison_summary_keeps|keeps].
Qed.

Lemma main_keeps (w : world) : keeps_page_ok (main w).
Proof.
  unfold main.
  do 6 (apply keeps_bind; [keeps|intros _ _ _]).
  apply keeps_bind; [|intros _ _ _; keeps].
  destruct (button w (py "Analyze")); [apply analyze_keeps|keeps].
Qed.

(** X15. [st.progress] is only ever given a fraction between 0 and 1:
    whatever the world, every progress event on the page that [main]
    builds has a positive denominator and a numerator between 0 and the
    denominator. *)
Theorem main_progress_in_range (w : world) : Forall event_ok (main w []).2.
Proof. apply main_keeps. constructor. Qed.

(** *** The exceptions that a computation lets through *)

Lemma raises_only_ret {A : Type} (allowed : exn -> Prop) (a : A) :
  raises_only allowed (ret a).
Proof. intros tr. exact I. Qed.

Lemma raises_only_emit (allowed : exn -> Prop) (e : event) :
  raises_only allowed (emit e).
Proof. intros tr. exact I. Qed.

Lemma raises_only_lift {A : Type} (allowed : exn -> Prop) (r : result A) :
  match r with Ok _ => True | Raise e => allowed e end ->
  raises_only allowed (lift r).
Proof. intros H tr. exact H. Qed.

Lemma raises_only_bind {A B : Type} (allowed : exn -> Prop)
    (m : io A) (k : A -> io B) :
  raises_only allowed m ->
  (forall a tr, (m tr).1 = Ok a -> raises_only allowed (k a)) ->
  raises_only allowed (bind m k).
Proof.
  intros Hm Hk tr. unfold bind. specialize (Hm tr). specialize (Hk) with (tr := tr).
  destruct (m tr) as [[a|e] tr']; cbn [fst] in *; [|exact Hm].
  apply (Hk a eq_refl).
Qed.

Lemma raises_only_try_except {A : Type} (allowed : exn -> Prop)
    (body : io A) (handler : exn -> io A) :
  (forall e, raises_only allowed (handler e)) ->
  raises_only allowed (try_except body handler).
Proof.
  intros Hh tr. unfold try_except.
  destruct (body tr) as [[a|e] tr']; [exact I|apply Hh].
Qed.

Ltac raises :=
  repeat first
    [ apply raises_only_ret
    | apply raises_only_emit
    | apply raises_only_try_except; intros ?
    | apply raises_only_bind; [|intros ? ? ?] ].

(** The two handlers let nothing through. *)
Lemma fetch_html_raises_nothing (allowed : exn -> Prop) (w : world) (url : pystr) :
  raises_only allowed (fetch_html w url).
Proof. unfold fetch_html. raises. Qed.

Lemma call_seo_genie_raises_nothing (allowed : exn -> Prop) (w : world)
    (page_title meta_desc : pystr) :
  raises_only allowed (call_seo_genie w page_title meta_desc).
Proof. unfold call_seo_genie. raises. Qed.

(** The word cloud is not guarded. *)
Lemma generate_wordcloud_raises (w : world) (text : pystr) :
  raises_only (fun e => exists text, wordcloud_generate w text = Raise e)
    (generate_wordcloud w text).
Proof.
  unfold generate_wordcloud. apply raises_only_bind; [|intros; raises].
  apply raises_only_lift. destruct (wordcloud_generate w text) eqn:E; eauto.
Qed.

Lemma analyze_site_raises (w : world) (heading advice : list fragment) (url : pystr) :
  raises_only (fun e => exists text, wordcloud_generate w text = Raise e)
    (analyze_site w heading advice url).
Proof.
  unfold analyze_site. apply raises_only_bind; [raises|intros _ _ _].
  apply raises_only_bind; [apply fetch_html_raises_nothing|intros html _ _].
  destruct html as [[|c html]|]; [raises| |raises]. cbv beta iota.
  destruct (PipelineFacts.extracted_score w (c :: html)) as (score & Hscore & _).
  destruct (ScorerFacts.extract_onpage_data_scorable w (c :: html))
    as (([h1 Hh1] & _) & _).
  destruct (extract_onpage_data w (c :: html)) as [[[title desc] headers] texts].
  cbn [fst snd] in Hscore, Hh1. cbv beta iota.
  apply raises_only_bind;
    [apply raises_only_lift; now rewrite Hscore|intros ? _ _].
  do 2 (apply raises_only_bind; [raises|intros _ _ _]).
  apply raises_only_bind;
    [apply raises_only_lift; unfold getitem; now rewrite Hh1|intros ? _ _].
  do 4 (apply raises_only_bind; [raises|intros _ _ _]).
  apply raises_only_bind; [apply generate_wordcloud_raises|intros _ _ _].
  do 2 (apply raises_only_bind; [raises|intros _ _ _]).
  apply raises_only_bind; [apply call_seo_genie_raises_nothing|intros ? _ _].
  raises.
Qed.

Lemma raises_only_weaken {A : Type} (allowed allowed' : exn -> Prop) (m : io A) :
  (forall e, allowed e -> allowed' e) ->
  raises_only allowed m -> raises_only allowed' m.
Proof.
  intros Himp Hm tr. specialize (Hm tr).
  destruct (m tr).1; [exact I|now apply Himp].
Qed.

Lemma comparison_summary_raises (w : world) (score1 score2 : option Z) :
  raises_only (escapes_main w) (comparison_summary score1 score2).
Proof.
  unfold comparison_summary, read_local.
  apply raises_only_bind; [raises|intros _ _ _].
  apply raises_only_bind;
    [destruct score1; [raises|apply raises_only_lift; right; now left]
    |intros s1 _ _].
  apply raises_only_bind;
    [destruct score2; [raises|apply raises_only_lift; right; now right]
    |intros s2 _ _].
  destruct (0 <? s1 - s2); [raises|]. destruct (s1 - s2 <? 0); raises.
Qed.

Lemma analyze_raises (w : world) (url1 url2 : pystr) :
  raises_only (escapes_main w) (analyze w url1 url2).
Proof.
  assert (Hsite : forall heading advice url,
            raises_only (escapes_main w) (analyze_site w heading advice url)).
  { intros. eapply raises_only_weaken; [|apply analyze_site_raises].
    intros e He. now left. }
  unfold analyze.
  apply raises_only_bind;
    [destruct (Text.truthy url1); [apply Hsite|raises]|intros score1 _ _].
  apply raises_only_bind;
    [destruct (Text.truthy url2); [apply Hsite|raises]|intros score2 _ _].
  destruct (Text.truthy url1 && Text.truthy url2);
    [apply comparison_summary_raises|raises].
Qed.

(** X16. The only exceptions that leave [main] are those that the word
    cloud raises and the two unbound scores of the summary: no failure
    of a request, of the scoring or of the advisory service gets out,
    whatever the world. *)
Theorem main_exceptions (w : world) (tr : list event) :
  match (main w tr).1 with
  | Ok _ => True
  | Raise e => escapes_main w e
  end.
Proof.
  revert tr. change (raises_only (escapes_main w) (main w)). unfold main.
  do 6 (apply raises_only_bind; [raises|intros _ _ _]).
  apply raises_only_bind; [|intros _ _ _; raises].
  destruct (button w (py "Analyze")); [apply analyze_raises|raises].
Qed.

(** The advisory generator only adds to the page. *)
Lemma call_seo_genie_extends (w : world) (page_title meta_desc : pystr)
    (tr : list event) :
  exists added, (call_seo_genie w page_title meta_desc tr).2 = tr ++ added.
Proof.
  unfold call_seo_genie, try_except, bind, call, lift, emit, ret.
  destruct (completion_create w _ tr) as [[|choice choices]|e]; cbn [first_choice snd].
  - now exists [static_advice_warning].
  - exists []. now rewrite app_nil_r.
  - now exists [static_advice_warning].
Qed.

(** *** The analysis of one site, case by case *)

(** The analysis of a page that was fetched: the report is shown, then
    the word cloud is tried, and only after it the keywords and the
    advice. *)
Lemma analyze_site_fetched (w : world) (heading advice : list fragment)
    (url : pystr) (tr tr0 : list event) (c : N) (rest : pystr) :
  fetch_html w url (tr ++ [Show Subheader heading]) = (Ok (Some (c :: rest)), tr0) ->
  exists score h1,
    Scorer.calculate_seo_score (extract_onpage_data w (c :: rest)).1.1.1
      (extract_onpage_data w (c :: rest)).1.1.2
      (extract_onpage_data w (c :: rest)).1.2 = Ok score
    /\ (extract_onpage_data w (c :: rest)).1.2 !! py "h1" = Some h1
    /\ analyze_site w heading advice url tr
       = match wordcloud_generate w (extract_onpage_data w (c :: rest)).2 with
         | Raise e =>
             (Raise e,
              tr0 ++ page_report (extract_onpage_data w (c :: rest)).1.1.1
                       (extract_onpage_data w (c :: rest)).1.1.2 h1 score)
         | Ok _ =>
             let shown :=
               tr0 ++ page_report (extract_onpage_data w (c :: rest)).1.1.1
                        (extract_onpage_data w (c :: rest)).1.1.2 h1 score
                   ++ [Pyplot (extract_onpage_data w (c :: rest)).2 50;
                       WriteKeywords (py "Top Keywords (approx.):")
                         (Keywords.get_top_keywords (unicode w)
                            (extract_onpage_data w (c :: rest)).2 10);
                       Show Markdown advice] in
             match call_seo_genie w (extract_onpage_data w (c :: rest)).1.1.1
                     (extract_onpage_data w (c :: rest)).1.1.2 shown with
             | (Ok suggestions, tr1) =>
                 (Ok (Some score), tr1 ++ [Show Info [FStr suggestions]])
             | (Raise e, tr1) => (Raise e, tr1)
             end
         end.
Proof.
  intros Hfetch.
  destruct (PipelineFacts.extracted_score w (c :: rest)) as (score & Hscore & _).
  destruct (ScorerFacts.extract_onpage_data_scorable w (c :: rest))
    as (([h1 Hh1] & _) & _).
  exists score, h1. split; [exact Hscore|]. split; [exact Hh1|].
  unfold analyze_site. unfold bind at 1. unfold emit at 1.
  unfold bind at 1. rewrite Hfetch. cbv beta iota.
  destruct (extract_onpage_data w (c :: rest)) as [[[title desc] headers] texts].
  cbn [fst snd] in *.
  unfold bind at 1. unfold lift at 1. rewrite Hscore.
  unfold bind at 1. unfold emit at 1.
  unfold bind at 1. unfold emit at 1.
  unfold bind at 1. unfold lift at 1. unfold getitem. rewrite Hh1.
  unfold bind at 1. unfold emit at 1.
  unfold bind at 1. unfold emit at 1.
  unfold bind at 1. unfold emit at 1.
  unfold bind at 1. unfold emit at 1.
  unfold bind at 1. unfold generate_wordcloud, bind at 1, lift at 1.
  unfold page_report.
  destruct (wordcloud_generate w texts) as [[]|e].
  - unfold emit at 1. unfold bind at 1. unfold emit at 1.
    unfold bind at 1. unfold emit at 1. unfold bind at 1.
    rewrite <- !app_assoc. cbn [app].
    destruct (call_seo_genie w title desc _) as [[suggestions|e] tr1];
      [|reflexivity].
    unfold bind, emit, ret. reflexivity.
  - rewrite <- !app_assoc. reflexivity.
Qed.

(** X17. A page whose markup the word cloud finds no word in ends the
    analysis with the exception of the word cloud, which nothing
    catches: the title, the description, the h1 list and the score are
    on the page, the keywords and the advice are not. *)
Theorem analyze_site_word_cloud_error (w : world) (heading advice : list fragment)
    (url : pystr) (tr : list event) (r : response) (c : N) (rest : pystr)
    (e : exn) :
  requests_get w (requested_url url) (tr ++ [Show Subheader heading]) = Ok r ->
  status_code r = 200 ->
  text r = c :: rest ->
  wordcloud_generate w (extract_onpage_data w (c :: rest)).2 = Raise e ->
  exists score h1,
    analyze_site w heading advice url tr
    = (Raise e,
       tr ++ [Show Subheader heading]
          ++ page_report (extract_onpage_data w (c :: rest)).1.1.1
               (extract_onpage_data w (c :: rest)).1.1.2 h1 score)
    /\ 10 <= score <= 60.
Proof.
  intros Hget Hstatus Htext Hcloud.
  assert (Hfetch : fetch_html w url (tr ++ [Show Subheader heading])
                   = (Ok (Some (c :: rest)), tr ++ [Show Subheader heading])).
  { rewrite fetch_html_cases, Hget, Hstatus, Htext. reflexivity. }
  destruct (analyze_site_fetched w heading advice url tr _ c rest Hfetch)
    as (score & h1 & Hscore & _ & Hsite).
  exists score, h1. rewrite Hsite, Hcloud. rewrite <- app_assoc.
  split; [reflexivity|].
  now destruct (PipelineFacts.calculate_seo_score_value _ _ _ _ Hscore).
Qed.

Lemma analyze_site_word_cloud_error_witness :
  requests_get Worlds.no_words (requested_url (py "example.com"))
    ([] ++ [Show Subheader your_site_heading])
  = Ok {| status_code := 200; text := Scenario.page_html |}
  /\ (analyze_site Worlds.no_words your_site_heading your_site_advice_heading
        (py "example.com") []).1
     = Raise (ValueError (py "We need at least 1 word to plot a word cloud, got 0.")).
Proof.
  split; [reflexivity|].
  destruct (analyze_site_word_cloud_error Worlds.no_words your_site_heading
              your_site_advice_heading (py "example.com") []
              {| status_code := 200; text := Scenario.page_html |}
              60%N (tail Scenario.page_html)
              (ValueError (py "We need at least 1 word to plot a word cloud, got 0."))
              eq_refl eq_refl eq_refl eq_refl)
    as (score & h1 & Hsite & _).
  now rewrite Hsite.
Defined.

(** X18. A page that is fetched and whose word cloud is drawn gets a
    score between 10 and 60, the one shown in the metric; the keyword
    list on the page has at most 10 entries; and the analysis returns,
    with the advice as the last thing shown. *)
Theorem analyze_site_success (w : world) (heading advice : list fragment)
    (url : pystr) (tr : list event) (r : response) (c : N) (rest : pystr) :
  requests_get w (requested_url url) (tr ++ [Show Subheader heading]) = Ok r ->
  status_code r = 200 ->
  text r = c :: rest ->
  wordcloud_generate w (extract_onpage_data w (c :: rest)).2 = Ok tt ->
  exists score keywords suggestions tr',
    analyze_site w heading advice url tr = (Ok (Some score), tr')
    /\ 10 <= score <= 60
    /\ Metric (py "SEO Health Score") score (py "/60") ∈ tr'
    /\ WriteKeywords (py "Top Keywords (approx.):") keywords ∈ tr'
    /\ len keywords <= 10
    /\ last tr' = Some (Show Info [FStr suggestions]).
Proof.
  intros Hget Hstatus Htext Hcloud.
  assert (Hfetch : fetch_html w url (tr ++ [Show Subheader heading])
                   = (Ok (Some (c :: rest)), tr ++ [Show Subheader heading])).
  { rewrite fetch_html_cases, Hget, Hstatus, Htext. reflexivity. }
  destruct (analyze_site_fetched w heading advice url tr _ c rest Hfetch)
    as (score & h1 & Hscore & _ & Hsite).
  rewrite Hcloud in Hsite. cbv zeta in Hsite.
  set (title := (extract_onpage_data w (c :: rest)).1.1.1) in *.
  set (desc := (extract_onpage_data w (c :: rest)).1.1.2) in *.
  set (texts := (extract_onpage_data w (c :: rest)).2) in *.
  set (shown := (tr ++ [Show Subheader heading]) ++ _) in Hsite.
  pose proof (call_seo_genie_raises_nothing (fun _ => False) w title desc shown)
    as Hgenie.
  pose proof (call_seo_genie_extends w title desc shown) as (added & Hadded).
  destruct (call_seo_genie w title desc shown) as [[suggestions|e] tr1];
    cbn [fst snd] in *; [|contradiction].
  exists score, (Keywords.get_top_keywords (unicode w) texts 10), suggestions,
    (tr1 ++ [Show Info [FStr suggestions]]).
  split; [exact Hsite|].
  split; [now destruct (PipelineFacts.calculate_seo_score_value _ _ _ _ Hscore)|].
  assert (Hin : forall e, e ∈ shown -> e ∈ tr1 ++ [Show Info [FStr suggestions]]).
  { intros e He. rewrite Hadded. rewrite !elem_of_app. now left; left. }
  split; [|split; [|split]].
  - apply Hin. unfold shown, page_report. rewrite !elem_of_app. right. left.
    do 3 right. now left.
  - apply Hin. unfold shown. rewrite !elem_of_app. right. right.
    right. now left.
  - unfold Keywords.get_top_keywords.
    rewrite RankingFacts.slice_to_take by lia.
    apply (RankingFacts.len_take_le _ 10). lia.
  - apply last_snoc.
Qed.

Lemma analyze_site_success_witness :
  requests_get Scenario.both_sites_up (requested_url (py "example.com"))
    ([] ++ [Show Subheader your_site_heading])
  = Ok {| status_code := 200; text := Scenario.page_html |}
  /\ wordcloud_generate Scenario.both_sites_up
       (extract_onpage_data Scenario.both_sites_up Scenario.page_html).2 = Ok tt
  /\ exists score keywords suggestions tr',
       analyze_site Scenario.both_sites_up your_site_heading
         your_site_advice_heading (py "example.com") []
       = (Ok (Some score), tr')
       /\ 10 <= score <= 60
       /\ Metric (py "SEO Health Score") score (py "/60") ∈ tr'
       /\ WriteKeywords (py "Top Keywords (approx.):") keywords ∈ tr'
       /\ len keywords <= 10
       /\ last tr' = Some (Show Info [FStr suggestions]).
Proof.
  split; [reflexivity|]. split; [reflexivity|].
  exact (analyze_site_success Scenario.both_sites_up your_site_heading
           your_site_advice_heading (py "example.com") []
           {| status_code := 200; text := Scenario.page_html |}
           60%N (tail Scenario.page_html) eq_refl eq_refl eq_refl eq_refl).
Defined.

(** X19. Without a page there is no analysis and no score: after a
    status other than 200 (one warning), after a request that raised
    (one error message), and after a status 200 with an empty body
    (nothing shown at all), the analysis of the site returns with the
    score left unbound. *)
Theorem analyze_site_without_page (w : world) (heading advice : list fragment)
    (url : pystr) (tr : list event) :
  (forall r,
     requests_get w (requested_url url) (tr ++ [Show Subheader heading]) = Ok r ->
     status_code r <> 200 ->
     analyze_site w heading advice url tr
     = (Ok None, tr ++ [Show Subheader heading; could_not_retrieve]))
  /\ (forall e,
        requests_get w (requested_url url) (tr ++ [Show Subheader heading])
        = Raise e ->
        analyze_site w heading advice url tr
        = (Ok None, tr ++ [Show Subheader heading; error_fetching e]))
  /\ (forall r,
        requests_get w (requested_url url) (tr ++ [Show Subheader heading]) = Ok r ->
        status_code r = 200 -> text r = [] ->
        analyze_site w heading advice url tr
        = (Ok None, tr ++ [Show Subheader heading])).
Proof.
  split; [|split].
  - intros r Hget Hstatus.
    rewrite (analyze_site_not_fetched w heading advice url tr r Hget Hstatus).
    reflexivity.
  - intros e Hget. unfold analyze_site, bind at 1, emit at 1. unfold bind at 1.
    rewrite fetch_html_cases, Hget. now rewrite <- app_assoc.
  - intros r Hget Hstatus Htext. unfold analyze_site, bind at 1, emit at 1.
    unfold bind at 1. rewrite fetch_html_cases, Hget, Hstatus, Htext.
    reflexivity.
Qed.

(** X20. The advice that the advisory generator returns, generated or
    static, has no white space at either end, and the generator returns
    it without raising. *)
Theorem call_seo_genie_trimmed (w : world) (page_title meta_desc : pystr)
    (tr : list event) :
  match (call_seo_genie w page_title meta_desc tr).1 with
  | Ok advice => trimmed advice
  | Raise _ => False
  end.
Proof.
  assert (Hstatic : trimmed static_advice) by (split; reflexivity).
  unfold call_seo_genie, try_except, bind, call, lift, emit, ret.
  destruct (completion_create w _ tr) as [[|choice choices]|e];
    cbn [first_choice fst]; try exact Hstatic.
  apply TextFacts.strip_trimmed.
Qed.

(** X21. Without a press of the button nothing is analysed: [main]
    returns after the six introductory events and the two closing ones,
    and the page it builds is the same in every world. *)
Theorem main_without_press (w : world) (tr : list event) :
  button w (py "Analyze") = false ->
  (main w tr).1 = Ok tt
  /\ length (main w tr).2 = (length tr + 8)%nat
  /\ (forall w', button w' (py "Analyze") = false -> main w' tr = main w tr).
Proof.
  intros Hbutton.
  assert (Hidle : forall w', button w' (py "Analyze") = false ->
            main w' tr = main Worlds.idle tr).
  { intros w' H. unfold main, bind, emit, ret. now rewrite H. }
  rewrite (Hidle w Hbutton). split; [reflexivity|]. split.
  - unfold main, bind, emit, ret. cbn [Worlds.idle button fst snd].
    rewrite !length_app. cbn [length]. lia.
  - intros w' H. now apply Hidle.
Qed.

Lemma main_without_press_witness :
  button Worlds.idle (py "Analyze") = false
  /\ (main Worlds.idle []).1 = Ok tt
  /\ length (main Worlds.idle []).2 = (length ([] : list event) + 8)%nat.
Proof.
  split; [reflexivity|].
  destruct (main_without_press Worlds.idle [] eq_refl) as (Hret & Hlen & _).
  split; [exact Hret|exact Hlen].
Defined.

(** X22. With one of the two URLs left empty only the other site is
    analysed, and the summary is not entered: the press ends as the
    analysis of that site ends, with no comparison title and no read of
    an unbound score. *)
Theorem analyze_one_site (w : world) (url : pystr) (tr : list event) :
  analyze w url [] tr
  = (if Text.truthy url
     then match analyze_site w your_site_heading your_site_advice_heading url tr with
          | (Ok _, tr') => (Ok tt, tr')
          | (Raise e, tr') => (Raise e, tr')
          end
     else (Ok tt, tr))
  /\ analyze w [] url tr
     = (if Text.truthy url
        then match analyze_site w competitor_heading competitor_advice_heading
                     url tr with
             | (Ok _, tr') => (Ok tt, tr')
             | (Raise e, tr') => (Raise e, tr')
             end
        else (Ok tt, tr)).
Proof.
  unfold analyze, bind, ret. cbn [Text.truthy andb].
  rewrite andb_false_r. destruct (Text.truthy url); split; reflexivity.
Qed.

(** X23. With both URLs given and both analyses returned, the press ends
    in the summary: after its title, the read of [score1] raises when
    the first page gave no score, else the read of [score2] raises when
    the competitor's page gave none, else exactly one message is shown,
    chosen by the sign of the difference of the scores. *)
Theorem analyze_outcome (w : world) (url1 url2 : pystr) (tr tr1 tr2 : list event)
    (score1 score2 : option Z) :
  Text.truthy url1 = true -> Text.truthy url2 = true ->
  analyze_site w your_site_heading your_site_advice_heading url1 tr
  = (Ok score1, tr1) ->
  analyze_site w competitor_heading competitor_advice_heading url2 tr1
  = (Ok score2, tr2) ->
  analyze w url1 url2 tr
  = match score1, score2 with
    | None, _ =>
        (Raise (UnboundLocalError (py "score1")), tr2 ++ [comparison_title])
    | Some _, None =>
        (Raise (UnboundLocalError (py "score2")), tr2 ++ [comparison_title])
    | Some s1, Some s2 =>
        (Ok tt,
         tr2 ++ [comparison_title;
                 if decide (s2 < s1) then site_leads (s1 - s2)
                 else if decide (s1 < s2) then competitor_leads (s1 - s2)
                 else tie])
    end.
Proof.
  intros Hurl1 Hurl2 Hsite1 Hsite2. unfold analyze.
  rewrite Hurl1, Hurl2. cbn [andb].
  unfold bind at 1. rewrite Hsite1. unfold bind at 1. rewrite Hsite2.
  destruct score1 as [s1|]; [|apply comparison_summary_unbound].
  destruct score2 as [s2|]; [|apply comparison_summary_unbound_2].
  apply comparison_summary_bound.
Qed.

Lemma analyze_outcome_witness :
  Text.truthy (py "example.com") = true
  /\ Text.truthy (py "competitor.com") = true
  /\ (analyze_site Worlds.competitor_missing your_site_heading
        your_site_advice_heading (py "example.com") []).1 = Ok (Some 30)
  /\ (analyze Worlds.competitor_missing (py "example.com") (py "competitor.com") []).1
     = Raise (UnboundLocalError (py "score2")).
Proof.
  split; [reflexivity|]. split; [reflexivity|]. split; [reflexivity|].
  rewrite (analyze_outcome Worlds.competitor_missing (py "example.com")
             (py "competitor.com") []
             (analyze_site Worlds.competitor_missing your_site_heading
                your_site_advice_heading (py "example.com") []).2
             (analyze_site Worlds.competitor_missing competitor_heading
                competitor_advice_heading (py "competitor.com")
                (analyze_site Worlds.competitor_missing your_site_heading
                   your_site_advice_heading (py "example.com") []).2).2
             (Some 30) None eq_refl eq_refl eq_refl eq_refl).
  reflexivity.
Defined.

End AppFurther.
